(** * ANPR console: the browser client of the vehicle / plate detection service

    A shallow embedding of the client code of the repository:
    - [frontend/lib/api.ts]: [API_URL], [inferImage], [inferVideo],
      [getVideoStatus];
    - [frontend/src/app/workspace/video/page.tsx]: the video workspace, its
      state, its event handlers and its polling effect;
    - [frontend/src/app/workspace/image/page.tsx]: [annotatedSrc].

    JavaScript values are embedded as a data type of JSON-like values with
    [undefined]; exceptions are an error monad; React state is a record that
    the handlers pass along; browser timers are a finite map of live
    intervals.  [Module VideoPage] runs every handler to completion on the
    answer to its request; [Module VideoAsync] splits the handlers at their
    [await] and keeps the requests that are in flight, so that answers can
    arrive late and out of order.  The geometry mapper and the job state
    machine of the detection service are not part of the client sources;
    they are modelled from the specification in [Module Geometry] and
    [Module JobStateMachine]. *)

From Stdlib Require Import ZArith NArith QArith Qcanon.
From stdpp Require Import gmap strings list fin_maps pretty.

#[local] Set Warnings "-register-all".
#[local] Open Scope string_scope.

(** ** JavaScript values *)

Module JS.

(** Numbers are the exact rationals in canonical form: JSON numbers without
    rounding, so that [===] on numbers is equality. *)
Inductive value : Type :=
| VUndef
| VNull
| VBool (b : bool)
| VNum (q : Qc)
| VStr (s : string)
| VArr (items : list value)
| VObj (fields : gmap string value).

Definition num (z : Z) : Qc := Q2Qc (inject_Z z).

Inductive exn : Type :=
| TypeError (message : string)
| SyntaxError (message : string)
| Error (message : string).

Definition exn_message (e : exn) : string :=
  match e with TypeError m | SyntaxError m | Error m => m end.

(** The outcome of evaluating an expression or running a function body. *)
Inductive outcome (A : Type) : Type :=
| Ok (a : A)
| Throw (e : exn).
Arguments Ok {A} a.
Arguments Throw {A} e.

#[global] Instance outcome_ret : MRet outcome := fun A a => Ok a.
#[global] Instance outcome_bind : MBind outcome := fun A B k m =>
  match m with Ok a => k a | Throw e => Throw e end.

(** [try { body } catch { handler }] on outcomes. *)
Definition try_catch {A} (body : outcome A) (handler : exn -> outcome A) : outcome A :=
  match body with Ok a => Ok a | Throw e => handler e end.

(** ToBoolean. *)
Definition truthy (v : value) : bool :=
  match v with
  | VUndef | VNull => false
  | VBool b => b
  | VNum q => negb (Qeq_bool q (num 0))
  | VStr s => negb (String.eqb s "")
  | VArr _ | VObj _ => true
  end.

Definition nullish (v : value) : bool :=
  match v with VUndef | VNull => true | _ => false end.

(** [a ?? b] and [a || b]. *)
Definition coalesce (a b : value) : value := if nullish a then b else a.
Definition or_else (a b : value) : value := if truthy a then a else b.

(** [a === b].  Arrays and objects compare by reference; every array or
    object compared in this program comes from a separate [JSON.parse], so
    two of them are never the same reference. *)
Definition strict_eq (a b : value) : bool :=
  match a, b with
  | VUndef, VUndef => true
  | VNull, VNull => true
  | VBool x, VBool y => Bool.eqb x y
  | VNum x, VNum y => Qeq_bool x y
  | VStr x, VStr y => String.eqb x y
  | _, _ => false
  end.

Fixpoint chars (s : string) : list value :=
  match s with
  | EmptyString => []
  | String c s' => VStr (String c EmptyString) :: chars s'
  end.

Definition indexed (l : list value) : gmap string value :=
  list_to_map (imap (fun i v => (pretty i, v)) l).

(** The own enumerable properties of a value: what [{...v}] copies. *)
Definition own_props (v : value) : gmap string value :=
  match v with
  | VObj m => m
  | VArr l => indexed l
  | VStr s => indexed (chars s)
  | _ => ∅
  end.

(** [v[k]] for a receiver that is neither [null] nor [undefined]; [k] is a
    data property (none of the names read by this program is inherited from
    a prototype). *)
Definition get (v : value) (k : string) : value :=
  match v with
  | VArr l =>
      if String.eqb k "length" then VNum (num (Z.of_nat (length l)))
      else default VUndef (indexed l !! k)
  | VStr s =>
      if String.eqb k "length" then VNum (num (Z.of_nat (String.length s)))
      else default VUndef (indexed (chars s) !! k)
  | _ => default VUndef (own_props v !! k)
  end.

(** [v.k]: reading a property of [null] or [undefined] throws. *)
Definition getProp (v : value) (k : string) : outcome value :=
  if nullish v
  then Throw (TypeError ("Cannot read properties of null or undefined (reading '" ++ k ++ "')"))
  else Ok (get v k).

(** [v?.k]. *)
Definition getOpt (v : value) (k : string) : value :=
  if nullish v then VUndef else get v k.

(** [v.map(f)]: only arrays have a [map] method; a JSON value stored under
    the key [map] is not callable either. *)
Definition array_map (f : value -> outcome value) (v : value) : outcome value :=
  match v with
  | VArr l => l' ← mapM f l; Ok (VArr l')
  | _ =>
      if nullish v
      then Throw (TypeError "Cannot read properties of null or undefined (reading 'map')")
      else Throw (TypeError "map is not a function")
  end.

Definition obj (l : list (string * value)) : value := VObj (list_to_map (reverse l)).

Definition is_array (v : value) : bool :=
  match v with VArr _ => true | _ => false end.

(** A number between 0 and 100 inclusive. *)
Definition is_percent (v : value) : bool :=
  match v with
  | VNum q => Qle_bool (num 0) q && Qle_bool q (num 100)
  | _ => false
  end.

End JS.

Import JS.

(** ** The network, as the client sees it *)

Module Net.

(** An HTTP response: [res.ok], the body read by [res.text()], and the body
    as parsed by [res.json()] ([None] when it is not valid JSON). *)
Record Response : Type := mkResponse {
  ok : bool;
  text : string;
  json : option value;
}.

(** What [await fetch(...)] gives: a response, or a rejection when the
    request could not be completed. *)
Inductive fetched : Type :=
| NetworkError (message : string)
| Responded (res : Response).

Definition fetch (net : fetched) : outcome Response :=
  match net with
  | NetworkError m => Throw (TypeError m)
  | Responded res => Ok res
  end.

Definition res_json (res : Response) : outcome value :=
  match json res with
  | Some v => Ok v
  | None => Throw (SyntaxError "Unexpected token in JSON")
  end.

(** A successful response carrying the JSON payload [data]. *)
Definition ok_json (data : value) : fetched :=
  Responded {| ok := true; text := ""; json := Some data |}.

End Net.

Import Net.

(** ** lib/api.ts *)

Module Api.

Inductive Task : Type := vehicle_detect | plate_recognize.

Definition Task_name (t : Task) : string :=
  match t with
  | vehicle_detect => "vehicle_detect"
  | plate_recognize => "plate_recognize"
  end.

Record ROI : Type := mkROI { x1 : Qc; y1 : Qc; x2 : Qc; y2 : Qc }.

(** A browser [File]: its name and its size in bytes. *)
Record File : Type := mkFile { name : string; size : N }.

(** [process.env]. *)
Abbreviation ProcessEnv := (gmap string string).

Definition API_URL (env : ProcessEnv) : string :=
  match env !! "NEXT_PUBLIC_BACKEND_URL" with
  | Some url => if String.eqb url "" then "http://localhost:8000" else url
  | None => "http://localhost:8000"
  end.

(** The requests the client sends.  [base] is the prefix of the URL; the
    cancel request of the video workspace has a relative URL. *)
Inductive request : Type :=
| PostInferImage (base : string) (task : Task) (roi : option ROI) (file : File)
| PostInferVideo (base : string) (task : Task) (roi : option ROI) (file : File)
| GetVideoStatus (base : string) (jobId : value)
| PostVideoCancel (jobId : value).

(** [text || fallback] on strings. *)
Definition text_or (t fallback : string) : string :=
  if String.eqb t "" then fallback else t.

(** [v.a.b] *)
Definition getProp2 (v : value) (a b : string) : outcome value :=
  x ← getProp v a; getProp x b.

Definition bbox_of (v : value) (field : string) : outcome value :=
  a ← getProp2 v field "x1";
  b ← getProp2 v field "y1";
  c ← getProp2 v field "x2";
  d ← getProp2 v field "y2";
  Ok (VArr [a; b; c; d]).

(** The callback of [data.raw_meta.vehicles.map]. *)
Definition vehicle_detection (v : value) : outcome value :=
  bbox ← bbox_of v "bbox_vehicle";
  score ← getProp v "confidence";
  class_id ← getProp v "class_id";
  Ok (obj [("bbox", bbox); ("score", score); ("class_id", class_id)]).

(** The callback of [data.plates.map]. *)
Definition plate_detection (p : value) : outcome value :=
  bp ← getProp p "bbox_plate";
  bbox ← (if truthy bp then bbox_of p "bbox_plate"
          else
            bv ← getProp p "bbox_vehicle";
            if truthy bv then bbox_of p "bbox_vehicle"
            else Ok (VArr [VNum (num 0); VNum (num 0); VNum (num 0); VNum (num 0)]));
  confidence ← getProp p "confidence";
  Ok (obj [("bbox", bbox); ("score", or_else confidence (VNum (num 0)));
           ("class_id", VNum (num 0))]).

Definition detections_of (task : Task) (data : value) : outcome value :=
  use_vehicles ← match task with
                 | vehicle_detect =>
                     raw_meta ← getProp data "raw_meta";
                     Ok (truthy (getOpt raw_meta "vehicles"))
                 | plate_recognize => Ok false
                 end;
  if use_vehicles : bool then
    vehicles ← getProp2 data "raw_meta" "vehicles";
    array_map vehicle_detection vehicles
  else
    plates ← getProp data "plates";
    if truthy plates then array_map plate_detection plates
    else Ok (VArr []).

(** The part of [inferImage] after [res.json()]: the value it returns for
    the payload [data]. *)
Definition transformImage (task : Task) (data : value) : outcome value :=
  detections ← detections_of task data;
  task_field ← getProp data "task";
  count ← getProp data (match task with
                        | vehicle_detect => "vehicle_count"
                        | plate_recognize => "plate_count"
                        end);
  storage_url ← getProp data "image_url";
  Ok (VObj (own_props data ∪
            list_to_map [("task", task_field); ("count", count);
                         ("detections", detections); ("storage_url", storage_url)])).

Definition inferImage (env : ProcessEnv) (file : File) (task : Task)
    (roi : option ROI) (net : fetched) : list request * outcome value :=
  if String.eqb (API_URL env) "" then ([], Throw (Error "Backend URL not configured"))
  else
    ([PostInferImage (API_URL env) task roi file],
     res ← fetch net;
     if negb (ok res) then Throw (Error (text_or (text res) "Image inference failed"))
     else data ← res_json res; transformImage task data).

Definition inferVideo (env : ProcessEnv) (file : File) (task : Task)
    (roi : option ROI) (net : fetched) : list request * outcome value :=
  if String.eqb (API_URL env) "" then ([], Throw (Error "Backend URL not configured"))
  else
    ([PostInferVideo (API_URL env) task roi file],
     res ← fetch net;
     if negb (ok res) then Throw (Error (text_or (text res) "Video inference failed"))
     else res_json res).

(** The part of [getVideoStatus] after [res.json()]:
    [{ ...data, progress: data.progress ?? 0 }]. *)
Definition normalizeStatus (data : value) : outcome value :=
  progress ← getProp data "progress";
  Ok (VObj (<["progress" := coalesce progress (VNum (num 0))]> (own_props data))).

Definition getVideoStatus (env : ProcessEnv) (jobId : value) (net : fetched)
    : list request * outcome value :=
  if String.eqb (API_URL env) "" then ([], Throw (Error "Backend URL not configured"))
  else
    ([GetVideoStatus (API_URL env) jobId],
     res ← fetch net;
     if negb (ok res) then Throw (Error (text_or (text res) "Failed to fetch video status"))
     else data ← res_json res; normalizeStatus data).

End Api.

Import Api.

(** ** src/app/workspace/video/page.tsx *)

Module VideoPage.

Definition MAX_VIDEO_SIZE : N := 200 * 1024 * 1024.






(** The state of the component: the [useState] cells, the [pollingRef]
    ref, and the intervals of the page that are live in the browser, each
    with the [jobId] its callback closes over.  Interval ids are non-zero,
    so a ref that holds one is truthy. *)
Record State : Type := mkState {
  file : option File;
  task : Task;
  jobId : value;
  result : value;
  loading : bool;
  error : option string;
  canceling : bool;
  pollingRef : option nat;
  timers : gmap nat value;
  next_timer : nat;
}.

Definition initial : State :=
  {| file := None; task := vehicle_detect; jobId := VNull; result := VNull;
     loading := false; error := None; canceling := false;
     pollingRef := None; timers := ∅; next_timer := 1 |}.

Definition setFile (f : option File) (st : State) : State :=
  {| file := f; task := task st; jobId := jobId st; result := result st;
     loading := loading st; error := error st; canceling := canceling st;
     pollingRef := pollingRef st; timers := timers st; next_timer := next_timer st |}.

Definition setTask (t : Task) (st : State) : State :=
  {| file := file st; task := t; jobId := jobId st; result := result st;
     loading := loading st; error := error st; canceling := canceling st;
     pollingRef := pollingRef st; timers := timers st; next_timer := next_timer st |}.

Definition setResult (r : value) (st : State) : State :=
  {| file := file st; task := task st; jobId := jobId st; result := r;
     loading := loading st; error := error st; canceling := canceling st;
     pollingRef := pollingRef st; timers := timers st; next_timer := next_timer st |}.

Definition setLoading (b : bool) (st : State) : State :=
  {| file := file st; task := task st; jobId := jobId st; result := result st;
     loading := b; error := error st; canceling := canceling st;
     pollingRef := pollingRef st; timers := timers st; next_timer := next_timer st |}.

Definition setError (e : option string) (st : State) : State :=
  {| file := file st; task := task st; jobId := jobId st; result := result st;
     loading := loading st; error := e; canceling := canceling st;
     pollingRef := pollingRef st; timers := timers st; next_timer := next_timer st |}.

Definition setCanceling (b : bool) (st : State) : State :=
  {| file := file st; task := task st; jobId := jobId st; result := result st;
     loading := loading st; error := error st; canceling := b;
     pollingRef := pollingRef st; timers := timers st; next_timer := next_timer st |}.

Definition set_pollingRef (r : option nat) (st : State) : State :=
  {| file := file st; task := task st; jobId := jobId st; result := result st;
     loading := loading st; error := error st; canceling := canceling st;
     pollingRef := r; timers := timers st; next_timer := next_timer st |}.

Definition clearInterval (id : nat) (st : State) : State :=
  {| file := file st; task := task st; jobId := jobId st; result := result st;
     loading := loading st; error := error st; canceling := canceling st;
     pollingRef := pollingRef st; timers := delete id (timers st);
     next_timer := next_timer st |}.

(** [setInterval(callback, 1500)] where [callback] closes over [job]. *)
Definition setInterval (job : value) (st : State) : nat * State :=
  (next_timer st,
   {| file := file st; task := task st; jobId := jobId st; result := result st;
      loading := loading st; error := error st; canceling := canceling st;
      pollingRef := pollingRef st; timers := <[next_timer st := job]> (timers st);
      next_timer := S (next_timer st) |}).

(** The polling effect, [useEffect(..., [jobId])]: its body, and the cleanup
    the previous run returned. *)
Definition polling_effect (job : value) (st : State) : State :=
  if truthy job then
    let '(id, st') := setInterval job st in set_pollingRef (Some id) st'
  else st.

Definition polling_cleanup (old_job : value) (st : State) : State :=
  if truthy old_job then
    match pollingRef st with
    | Some id => clearInterval id st
    | None => st
    end
  else st.

(** [setJobId(job)]: the effect runs again when the dependency changed. *)
Definition setJobId (job : value) (st : State) : State :=
  let st' :=
    {| file := file st; task := task st; jobId := job; result := result st;
       loading := loading st; error := error st; canceling := canceling st;
       pollingRef := pollingRef st; timers := timers st; next_timer := next_timer st |} in
  if strict_eq (jobId st) job then st'
  else polling_effect job (polling_cleanup (jobId st) st').

Definition resetJob (st : State) : State :=
  let st1 :=
    match pollingRef st with
    | Some id => set_pollingRef None (clearInterval id st)
    | None => st
    end in
  setResult VNull (setJobId VNull st1).

Definition handleFileChange (f : option File) (st : State) : State :=
  match f with
  | Some f' =>
      if (MAX_VIDEO_SIZE <? size f')%N
      then setFile None (setError (Some "File size exceeds 200MB limit") st)
      else resetJob (setError None (setFile f st))
  | None => resetJob (setError None (setFile f st))
  end.

(** The Remove button. *)
Definition handleRemove (st : State) : State := resetJob (setFile None st).

(** The updater passed to [setResult] by the polling callback. *)
Definition poll_update (prev status : value) : value :=
  if negb (truthy prev) then status
  else if negb (strict_eq (get prev "status") (get status "status")) then status
  else if negb (strict_eq (get prev "progress") (get status "progress")) then status
  else if negb (strict_eq (get prev "annotated_video_url") (get status "annotated_video_url"))
    then status
  else if negb (strict_eq (get prev "vehicle_count") (get status "vehicle_count")) then status
  else if negb (strict_eq (get prev "plate_count") (get status "plate_count")) then status
  else prev.

Definition is_terminal (status : value) : bool :=
  strict_eq (get status "status") (VStr "completed")
  || strict_eq (get status "status") (VStr "failed").

Definition effectiveStatus (st : State) : value :=
  if truthy (jobId st)
  then coalesce (getOpt (result st) "status") (VStr "upload_received")
  else VNull.

(** The width of the progress bar, in percent, when the bar is rendered:
    [typeof result?.progress === "number"] and
    [Math.min(result.progress, 100)]. *)
Definition progress_bar_width (st : State) : option Qc :=
  match getOpt (result st) "progress" with
  | VNum q => Some (if Qle_bool q (num 100) then q else num 100)
  | _ => None
  end.

Section Handlers.

Variable env : ProcessEnv.

(** Every handler runs to completion on the outcome [net] of its network
    call: the answer arrives before anything else happens.
    [Module VideoAsync] has the handlers with their requests in flight. *)
Definition handleRun (net : fetched) (st : State) : State * list request :=
  match file st with
  | None => (setError (Some "Select a video first") st, [])
  | Some f =>
      let st1 := resetJob (setError None (setLoading true st)) in
      let '(reqs, r) := inferVideo env f (task st) None net in
      let st2 :=
        match resp ← r; getProp resp "job_id" with
        | Ok job =>
            setResult (obj [("job_id", job); ("status", VStr "upload_received");
                            ("progress", VNum (num 0))])
                      (setJobId job st1)
        | Throw err =>
            setError (Some (text_or (exn_message err) "Failed to start inference")) st1
        end in
      (setLoading false st2, reqs)
  end.

Definition handleCancel (net : fetched) (st : State) : outcome (State * list request) :=
  if negb (truthy (jobId st)) then Ok (st, [])
  else
    let st1 := setCanceling true st in
    let attempt := try_catch (_ ← fetch net; Ok tt) (fun _ => Ok tt) in
    let st2 := setCanceling false st1 in
    _ ← attempt;
    Ok (resetJob st2, [PostVideoCancel (jobId st)]).

(** The interval callback of the polling effect, for the job it closes
    over. *)
Definition poll (job : value) (net : fetched) (st : State) : State * list request :=
  let '(reqs, r) := getVideoStatus env job net in
  (match r with
   | Ok status =>
       let st1 := setResult (poll_update (result st) status) st in
       if is_terminal status then
         match pollingRef st1 with
         | Some id => set_pollingRef None (clearInterval id st1)
         | None => st1
         end
       else st1
   | Throw _ => st
   end, reqs).

(** An interval fires only while it is live. *)
Definition tick (id : nat) (net : fetched) (st : State) : option (State * list request) :=
  match timers st !! id with
  | Some job => Some (poll job net st)
  | None => None
  end.

Inductive event : Type :=
| FileChange (f : option File)
| Remove
| SelectTask (t : Task)
| Run (net : fetched)
| Cancel (net : fetched)
| Tick (id : nat) (net : fetched).

Definition step (ev : event) (st : State) : option (State * list request) :=
  match ev with
  | FileChange f => Some (handleFileChange f st, [])
  | Remove => Some (handleRemove st, [])
  | SelectTask t => Some (setTask t st, [])
  | Run net => Some (handleRun net st)
  | Cancel net =>
      match handleCancel net st with
      | Ok r => Some r
      | Throw _ => None
      end
  | Tick id net => tick id net st
  end.

(** A run of events from a state; the requests sent, in order.  Events
    that cannot happen (a tick of an interval that was cleared) are
    skipped. *)
Fixpoint run (evs : list event) (st : State) : State * list request :=
  match evs with
  | [] => (st, [])
  | ev :: evs' =>
      match step ev st with
      | Some (st', reqs) => let '(st'', reqs') := run evs' st' in (st'', (reqs ++ reqs')%list)
      | None => run evs' st
      end
  end.

End Handlers.

(** The live intervals are exactly the one [pollingRef] holds, and it polls
    the current job. *)
Definition wf (st : State) : Prop :=
  match pollingRef st with
  | Some id => timers st = {[ id := jobId st ]} ∧ truthy (jobId st) = true
  | None => timers st = ∅
  end.

Inductive reachable (env : ProcessEnv) : State → Prop :=
| reachable_initial : reachable env initial
| reachable_step ev st st' reqs :
    reachable env st → step env ev st = Some (st', reqs) → reachable env st'.

End VideoPage.

Import VideoPage.

(** ** The geometry mapper of the detection service *)

Module Geometry.

(** Modelled from the spec: the coordinate spaces of the Preprocessor /
    GeometryMapper, which runs in the detection service and is not among
    the client sources.  Coordinates are exact rationals. *)
Inductive Space : Type := RoiSpace | ModelInput | OriginalFrame.

(** Modelled from the spec: a bounding box (data model, BBox); every box
    is tagged with its coordinate space. *)
Record BBox (space : Space) : Type := mkBBox {
  bx1 : Q; by1 : Q; bx2 : Q; by2 : Q;
}.
Arguments mkBBox {space} _ _ _ _.
Arguments bx1 {space} _.
Arguments by1 {space} _.
Arguments bx2 {space} _.
Arguments by2 {space} _.

Record Frame : Type := mkFrame { width : Z; height : Z }.

(** The caller's region of interest: integers, original-frame space. *)
Record Region : Type := mkRegion { rx1 : Z; ry1 : Z; rx2 : Z; ry2 : Z }.

(** Modelled from the spec: the transform (data model, Transform): scale
    factor, pad offsets and the offset of the region. *)
Record Transform : Type := mkTransform {
  scale : Q; padX : Q; padY : Q; roiX : Q; roiY : Q;
}.

(** The two padding policies the specification allows. *)
Inductive Padding : Type := Corner | Center.

Inductive PrepareError : Type := InvalidROI.

Definition clamp (lo hi x : Z) : Z := Z.max lo (Z.min hi x).

Definition clamp_region (f : Frame) (r : Region) : Region :=
  {| rx1 := clamp 0 (width f) (rx1 r); ry1 := clamp 0 (height f) (ry1 r);
     rx2 := clamp 0 (width f) (rx2 r); ry2 := clamp 0 (height f) (ry2 r) |}.

Definition whole_frame (f : Frame) : Region :=
  {| rx1 := 0; ry1 := 0; rx2 := width f; ry2 := height f |}.

Definition region_width (r : Region) : Z := rx2 r - rx1 r.
Definition region_height (r : Region) : Z := ry2 r - ry1 r.

Definition no_area (r : Region) : bool :=
  (region_width r <=? 0)%Z || (region_height r <=? 0)%Z.

Definition fit_scale (input_size : Z) (r : Region) : Q :=
  let sx := (inject_Z input_size / inject_Z (region_width r))%Q in
  let sy := (inject_Z input_size / inject_Z (region_height r))%Q in
  if Qle_bool sx sy then sx else sy.

Definition pad_of (policy : Padding) (input_size : Z) (extent : Z) (s : Q) : Q :=
  match policy with
  | Corner => 0%Q
  | Center => ((inject_Z input_size - inject_Z extent * s) / 2)%Q
  end.

Definition transform_of (input_size : Z) (policy : Padding) (r : Region) : Transform :=
  let s := fit_scale input_size r in
  {| scale := s;
     padX := pad_of policy input_size (region_width r) s;
     padY := pad_of policy input_size (region_height r) s;
     roiX := inject_Z (rx1 r);
     roiY := inject_Z (ry1 r) |}.

(** Modelled from the spec: [prepare(frame, roi?)] of section 4.1, as far
    as the transform goes.  A region of interest is clamped to the frame;
    [InvalidROI] when the clamped region has no area; the region is resized
    preserving the aspect ratio to fit the square model input and the
    remainder is padded; [scale], [padX], [padY] and the origin of the
    region are recorded. *)
Definition prepare (input_size : Z) (policy : Padding) (f : Frame) (roi : option Region)
    : PrepareError + Transform :=
  match roi with
  | Some r =>
      let r' := clamp_region f r in
      if no_area r' then inl InvalidROI else inr (transform_of input_size policy r')
  | None => inr (transform_of input_size policy (whole_frame f))
  end.

(** Modelled from the spec: the forward mapping, original frame to model
    input: crop to the region, resize, pad. *)
Definition forward (t : Transform) (b : BBox OriginalFrame) : BBox ModelInput :=
  {| bx1 := (bx1 b - roiX t) * scale t + padX t;
     by1 := (by1 b - roiY t) * scale t + padY t;
     bx2 := (bx2 b - roiX t) * scale t + padX t;
     by2 := (by2 b - roiY t) * scale t + padY t |}%Q.

(** Modelled from the spec: [transform.invert] of section 4.1, model input
    to original frame: subtract the pad, divide by the scale, add the
    origin of the region. *)
Definition invert (t : Transform) (b : BBox ModelInput) : BBox OriginalFrame :=
  {| bx1 := (bx1 b - padX t) / scale t + roiX t;
     by1 := (by1 b - padY t) / scale t + roiY t;
     bx2 := (bx2 b - padX t) / scale t + roiX t;
     by2 := (by2 b - padY t) / scale t + roiY t |}%Q.

(** Equality of boxes, coordinate by coordinate. *)
Definition bbox_eq {s : Space} (a b : BBox s) : Prop :=
  (bx1 a == bx1 b ∧ by1 a == by1 b ∧ bx2 a == bx2 b ∧ by2 a == by2 b)%Q.

End Geometry.

(** ** src/app/workspace/image/page.tsx *)

Module ImagePage.

(** [result?.storage_url || result?.image_url || result?.local_path || null] *)
Definition annotatedSrc (result : value) : value :=
  or_else (or_else (or_else (getOpt result "storage_url") (getOpt result "image_url"))
                   (getOpt result "local_path")) VNull.

End ImagePage.

(** ** Observations on runs of the video workspace *)

Module Trace.

Definition is_tick (ev : event) : bool :=
  match ev with Tick _ _ => true | _ => false end.


(** The progress [getVideoStatus] reports for the payload [data]. *)
Definition reported_progress (data : value) : value :=
  coalesce (get data "progress") (VNum (num 0)).

End Trace.

Import Trace.

(** ** Shapes of image payloads *)

Module Payload.

(** The [plates] field is absent (or otherwise falsy), or it is an array
    of entries none of which is [null]. *)
Definition plates_ok (plates : value) : bool :=
  negb (truthy plates)
  || match plates with
     | VArr ps => forallb (fun p => negb (nullish p)) ps
     | _ => false
     end.

(** The [vehicles] field is an array of entries that carry
    [bbox_vehicle]. *)
Definition vehicles_ok (vehicles : value) : bool :=
  match vehicles with
  | VArr vs =>
      forallb (fun v => negb (nullish v) && negb (nullish (get v "bbox_vehicle"))) vs
  | _ => false
  end.

(** The payloads on which the list that [inferImage] maps over is
    well-formed: for [vehicle_detect] with [raw_meta.vehicles] present the
    vehicles, otherwise the plates. *)
Definition payload_ok (task : Task) (data : value) : bool :=
  negb (nullish data)
  && match task with
     | vehicle_detect =>
         let vehicles := getOpt (get data "raw_meta") "vehicles" in
         if truthy vehicles then vehicles_ok vehicles
         else plates_ok (get data "plates")
     | plate_recognize => plates_ok (get data "plates")
     end.

Definition zero_box : value :=
  VArr [VNum (num 0); VNum (num 0); VNum (num 0); VNum (num 0)].

(** What the plate entry [p] and its detection [d] have to do with each
    other. *)
Definition plate_defaults (p d : value) : Prop :=
  get d "class_id" = VNum (num 0)
  ∧ (truthy (get p "bbox_plate") = false → truthy (get p "bbox_vehicle") = false →
     get d "bbox" = zero_box)
  ∧ (get p "confidence" = VUndef → get d "score" = VNum (num 0)).

Definition count_field (task : Task) : string :=
  match task with
  | vehicle_detect => "vehicle_count"
  | plate_recognize => "plate_count"
  end.

End Payload.

Import Payload.

(** ** Sample payloads *)

Module Sample.

Definition box (a b c d : Z) : value :=
  obj [("x1", VNum (num a)); ("y1", VNum (num b)); ("x2", VNum (num c)); ("y2", VNum (num d))].

(** [{ "status": "processing", "progress": 150 }] *)
Definition status_150 : value :=
  obj [("status", VStr "processing"); ("progress", VNum (num 150))].

(** [{ "status": "processing" }] *)
Definition status_bare : value := obj [("status", VStr "processing")].

(** An image payload of the shape the service sends: one vehicle, two
    plates of which the second has neither box nor confidence. *)
Definition image_payload : value :=
  obj [("task", VStr "plate_recognize");
       ("vehicle_count", VNum (num 1));
       ("plate_count", VNum (num 2));
       ("image_url", VStr "https://storage.example/anpr-frames/frame-1.jpg");
       ("plates",
        VArr [obj [("bbox_plate", box 10 20 110 60); ("confidence", VNum (Q2Qc (4 # 5)))];
              obj [("plate_text", VStr "GJ01AB1234")]]);
       ("raw_meta",
        obj [("vehicles",
              VArr [obj [("bbox_vehicle", box 0 0 300 200);
                         ("confidence", VNum (Q2Qc (9 # 10)));
                         ("class_id", VNum (num 2))]])])].

(** A payload whose only vehicle entry has no [bbox_vehicle]. *)
Definition vehicle_without_bbox : value :=
  obj [("task", VStr "vehicle_detect");
       ("vehicle_count", VNum (num 1));
       ("plate_count", VNum (num 0));
       ("image_url", VStr "https://storage.example/anpr-frames/frame-2.jpg");
       ("plates", VArr []);
       ("raw_meta",
        obj [("vehicles",
              VArr [obj [("confidence", VNum (Q2Qc (9 # 10)));
                         ("class_id", VNum (num 2))]])])].

(** What [inferImage] returns for [image_payload] under
    [plate_recognize]. *)
Definition image_result : value :=
  match transformImage plate_recognize image_payload with
  | Ok r => r
  | Throw _ => VUndef
  end.

(** The workspace after a file was chosen and a job was started: the
    service answered the upload with [{ "job_id": "job-1" }]. *)
Definition polling_state : State :=
  (handleRun ∅ (ok_json (obj [("job_id", VStr "job-1")]))
     (handleFileChange (Some {| name := "clip.mp4"; size := 1024 |}) initial)).1.




Definition a_file : File := {| name := "clip.mp4"; size := 1024 |}.

End Sample.

Import Sample.

(** ** What the video workspace renders *)

Module VideoView.

(** [disabled={loading || !file || !!jobId}] of the Run button. *)
Definition run_disabled (st : State) : bool :=
  loading st || negb (bool_decide (is_Some (file st))) || truthy (jobId st).

(** The processing overlay, with the spinner, the label and the Cancel
    button: [jobId && effectiveStatus !== "completed" &&
    effectiveStatus !== "failed"]. *)
Definition overlay_shown (st : State) : bool :=
  truthy (jobId st)
  && negb (strict_eq (effectiveStatus st) (VStr "completed"))
  && negb (strict_eq (effectiveStatus st) (VStr "failed")).

(** The annotated video:
    [effectiveStatus === "completed" && result?.annotated_video_url]. *)
Definition final_video (st : State) : option value :=
  if strict_eq (effectiveStatus st) (VStr "completed")
     && truthy (getOpt (result st) "annotated_video_url")
  then Some (getOpt (result st) "annotated_video_url")
  else None.

(** The text "Processing failed": [effectiveStatus === "failed"]. *)
Definition failed_shown (st : State) : bool :=
  strict_eq (effectiveStatus st) (VStr "failed").

(** The outcomes of a request that give the caller no payload to read: the
    request was not completed, the response is not ok, its body is not
    JSON, or the payload is [null]. *)
Definition no_payload (net : fetched) : bool :=
  match net with
  | NetworkError _ => true
  | Responded res =>
      negb (ok res)
      || match json res with
         | Some data => nullish data
         | None => true
         end
  end.

(** The five fields the polling callback compares. *)
Definition compared_fields : list string :=
  ["status"; "progress"; "annotated_video_url"; "vehicle_count"; "plate_count"].

End VideoView.

Import VideoView.

(** ** pingBackend of lib/api.ts and the home page, src/app/page.tsx *)

Module HomePage.

Inductive health_request : Type := GetHealth (base : string).

Definition pingBackend (env : ProcessEnv) (net : fetched)
    : list health_request * outcome value :=
  if String.eqb (API_URL env) "" then ([], Throw (Error "Backend URL not configured"))
  else
    ([GetHealth (API_URL env)],
     res ← fetch net;
     if negb (ok res) then Throw (Error "Backend not responding")
     else res_json res).

Inductive BackendStatus : Type := online | offline | checking.

(** [checkBackend]: one run, on the outcome of the health request. *)
Definition checkBackend (env : ProcessEnv) (net : fetched) : BackendStatus :=
  match (pingBackend env net).2 with
  | Ok _ => online
  | Throw _ => offline
  end.

(** The status after the first check and the checks of the interval, for
    the successive outcomes of the health requests; the checks complete in
    the order they were started. *)
Definition backendStatus (env : ProcessEnv) (nets : list fetched) : BackendStatus :=
  fold_left (fun _ net => checkBackend env net) nets checking.

End HomePage.

(** ** src/app/workspace/image/page.tsx: state and handlers *)

Module ImageWorkspace.

(** The state of the component.  [fileUrl] is the ref that holds the
    object URL of the chosen file; object URLs are named by numbers (a
    URL that [URL.createObjectURL] returns is a non-empty string, so a ref
    that holds one passes the test [fileUrl.current && fileUrl.current !==
    ""]).  [urls] are the object URLs of the page that were created and not
    revoked. *)
Record State : Type := mkState {
  file : option File;
  task : Task;
  loading : bool;
  result : value;
  error : option string;
  fileUrl : option nat;
  urls : gset nat;
  next_url : nat;
}.

Definition initial : State :=
  {| file := None; task := vehicle_detect; loading := false; result := VNull;
     error := None; fileUrl := None; urls := ∅; next_url := 0 |}.

Definition revokeObjectURL (u : nat) (st : State) : State :=
  {| file := file st; task := task st; loading := loading st; result := result st;
     error := error st; fileUrl := fileUrl st; urls := urls st ∖ {[u]};
     next_url := next_url st |}.

Definition createObjectURL (st : State) : nat * State :=
  (next_url st,
   {| file := file st; task := task st; loading := loading st; result := result st;
      error := error st; fileUrl := fileUrl st; urls := {[next_url st]} ∪ urls st;
      next_url := S (next_url st) |}).

Definition set_fileUrl (u : option nat) (st : State) : State :=
  {| file := file st; task := task st; loading := loading st; result := result st;
     error := error st; fileUrl := u; urls := urls st; next_url := next_url st |}.

Definition setFile (f : option File) (st : State) : State :=
  {| file := f; task := task st; loading := loading st; result := result st;
     error := error st; fileUrl := fileUrl st; urls := urls st; next_url := next_url st |}.

Definition setTask (t : Task) (st : State) : State :=
  {| file := file st; task := t; loading := loading st; result := result st;
     error := error st; fileUrl := fileUrl st; urls := urls st; next_url := next_url st |}.

Definition setLoading (b : bool) (st : State) : State :=
  {| file := file st; task := task st; loading := b; result := result st;
     error := error st; fileUrl := fileUrl st; urls := urls st; next_url := next_url st |}.

Definition setResult (r : value) (st : State) : State :=
  {| file := file st; task := task st; loading := loading st; result := r;
     error := error st; fileUrl := fileUrl st; urls := urls st; next_url := next_url st |}.

Definition setError (e : option string) (st : State) : State :=
  {| file := file st; task := task st; loading := loading st; result := result st;
     error := e; fileUrl := fileUrl st; urls := urls st; next_url := next_url st |}.

Definition handleFileChange (f : option File) (st : State) : State :=
  let st1 :=
    match fileUrl st with
    | Some u => revokeObjectURL u st
    | None => st
    end in
  let st2 :=
    match f with
    | Some _ => let '(u, st') := createObjectURL st1 in set_fileUrl (Some u) st'
    | None => set_fileUrl None st1
    end in
  setError None (setResult VNull (setFile f st2)).

(** The Remove button. *)
Definition handleRemove (st : State) : State :=
  let st1 :=
    match fileUrl st with
    | Some u => set_fileUrl None (revokeObjectURL u st)
    | None => st
    end in
  setResult VNull (setFile None st1).

Definition handleRun (env : ProcessEnv) (net : fetched) (st : State)
    : State * list request :=
  match file st with
  | None => (setError (Some "Select an image first") st, [])
  | Some f =>
      let st1 := setResult VNull (setError None (setLoading true st)) in
      let '(reqs, r) := inferImage env f (task st) None net in
      let st2 :=
        match r with
        | Ok data => setResult data st1
        | Throw err => setError (Some (text_or (exn_message err) "Inference failed")) st1
        end in
      (setLoading false st2, reqs)
  end.

Inductive event : Type :=
| FileChange (f : option File)
| Remove
| SelectTask (t : Task)
| Run (net : fetched).

Definition step (env : ProcessEnv) (ev : event) (st : State) : State * list request :=
  match ev with
  | FileChange f => (handleFileChange f st, [])
  | Remove => (handleRemove st, [])
  | SelectTask t => (setTask t st, [])
  | Run net => handleRun env net st
  end.

Inductive reachable (env : ProcessEnv) : State → Prop :=
| reachable_initial : reachable env initial
| reachable_step ev st : reachable env st → reachable env (step env ev st).1.

(** The object URLs that are live are exactly the one the ref holds, and
    the ref holds one exactly when a file is chosen. *)
Definition urls_ok (st : State) : Prop :=
  match fileUrl st with
  | Some u => urls st = {[u]} ∧ is_Some (file st)
  | None => urls st = ∅ ∧ file st = None
  end.

End ImageWorkspace.

(** ** src/app/history/page.tsx: pagination *)

Module HistoryPage.

(** Offsets and totals are integers. *)
Definition limit : Z := 50.

(** [Math.ceil(a / b)] and [Math.floor(a / b)] for integers, [b] positive. *)
Definition ceil_div (a b : Z) : Z := - ((- a) / b).
Definition floor_div (a b : Z) : Z := a / b.

Definition totalPages (total : Z) : Z := ceil_div total limit.
Definition currentPage (offset : Z) : Z := floor_div offset limit + 1.

(** The Previous and Next buttons: what a click sets the offset to, and
    when the button is disabled. *)
Definition previous (offset : Z) : Z := Z.max 0 (offset - limit).
Definition next (offset : Z) : Z := offset + limit.
Definition previous_disabled (offset : Z) : bool := (offset =? 0)%Z.
Definition next_disabled (offset total : Z) : bool :=
  (currentPage offset =? totalPages total)%Z.

(** The pagination bar is rendered when [totalPages > 1]. *)
Definition pagination_shown (total : Z) : bool := (1 <? totalPages total)%Z.

(** The range in the heading, [offset + 1] to [Math.min(offset + limit,
    total)], rendered when [total > 0]. *)
Definition range_shown (offset total : Z) : option (Z * Z) :=
  if (0 <? total)%Z then Some (offset + 1, Z.min (offset + limit) total)%Z else None.

Inductive Tab : Type := frames | videos.

Record State : Type := mkState {
  activeTab : Tab;
  frameOffset : Z;
  videoOffset : Z;
  frameTotal : Z;
  videoTotal : Z;
}.

Definition initial : State :=
  {| activeTab := frames; frameOffset := 0; videoOffset := 0;
     frameTotal := 0; videoTotal := 0 |}.

(** The clicks, and the totals that a load brings.  A button that is not
    rendered or is disabled takes no click. *)
Inductive event : Type :=
| ClickFrames
| ClickVideos
| FramePrevious
| FrameNext
| VideoPrevious
| VideoNext
| FramesLoaded (total : Z)
| VideosLoaded (total : Z).

Definition step (ev : event) (st : State) : option State :=
  match ev with
  | ClickFrames =>
      Some {| activeTab := frames; frameOffset := 0; videoOffset := videoOffset st;
              frameTotal := frameTotal st; videoTotal := videoTotal st |}
  | ClickVideos =>
      Some {| activeTab := videos; frameOffset := frameOffset st; videoOffset := 0;
              frameTotal := frameTotal st; videoTotal := videoTotal st |}
  | FramePrevious =>
      match activeTab st with
      | frames =>
          if pagination_shown (frameTotal st) && negb (previous_disabled (frameOffset st))
          then Some {| activeTab := activeTab st;
                       frameOffset := previous (frameOffset st);
                       videoOffset := videoOffset st;
                       frameTotal := frameTotal st; videoTotal := videoTotal st |}
          else None
      | videos => None
      end
  | FrameNext =>
      match activeTab st with
      | frames =>
          if pagination_shown (frameTotal st)
             && negb (next_disabled (frameOffset st) (frameTotal st))
          then Some {| activeTab := activeTab st;
                       frameOffset := next (frameOffset st);
                       videoOffset := videoOffset st;
                       frameTotal := frameTotal st; videoTotal := videoTotal st |}
          else None
      | videos => None
      end
  | VideoPrevious =>
      match activeTab st with
      | videos =>
          if pagination_shown (videoTotal st) && negb (previous_disabled (videoOffset st))
          then Some {| activeTab := activeTab st;
                       frameOffset := frameOffset st;
                       videoOffset := previous (videoOffset st);
                       frameTotal := frameTotal st; videoTotal := videoTotal st |}
          else None
      | frames => None
      end
  | VideoNext =>
      match activeTab st with
      | videos =>
          if pagination_shown (videoTotal st)
             && negb (next_disabled (videoOffset st) (videoTotal st))
          then Some {| activeTab := activeTab st;
                       frameOffset := frameOffset st;
                       videoOffset := next (videoOffset st);
                       frameTotal := frameTotal st; videoTotal := videoTotal st |}
          else None
      | frames => None
      end
  | FramesLoaded total =>
      Some {| activeTab := activeTab st; frameOffset := frameOffset st;
              videoOffset := videoOffset st;
              frameTotal := total; videoTotal := videoTotal st |}
  | VideosLoaded total =>
      Some {| activeTab := activeTab st; frameOffset := frameOffset st;
              videoOffset := videoOffset st;
              frameTotal := frameTotal st; videoTotal := total |}
  end.

Inductive reachable : State → Prop :=
| reachable_initial : reachable initial
| reachable_step ev st st' : reachable st → step ev st = Some st' → reachable st'.

(** An offset is a page boundary: a non-negative multiple of [limit]. *)
Definition aligned (offset : Z) : Prop := ∃ k : Z, (0 <= k)%Z ∧ offset = (k * limit)%Z.

End HistoryPage.

(** ** src/app/history/videos/[id]/page.tsx: the duration *)

Module VideoDetailPage.

(** Times are what [new Date(...).getTime()] gives for valid dates:
    integers, in milliseconds.  [completed_at] is optional. *)
Definition duration (completed_at : option Z) (created_at : Z) : option Z :=
  match completed_at with
  | Some c => Some (c - created_at)%Z
  | None => None
  end.

(** [duration ? x : null]: neither [null] nor 0. *)
Definition duration_truthy (d : option Z) : option Z :=
  match d with
  | Some d' => if (d' =? 0)%Z then None else Some d'
  | None => None
  end.

(** [duration ? Math.floor(duration / 60000) : null] *)
Definition durationMinutes (d : option Z) : option Z :=
  match duration_truthy d with
  | Some d' => Some (d' / 60000)%Z
  | None => None
  end.

(** [duration ? Math.floor((duration % 60000) / 1000) : null]; [%] is the
    remainder with the sign of the dividend. *)
Definition durationSeconds (d : option Z) : option Z :=
  match duration_truthy d with
  | Some d' => Some (Z.rem d' 60000 / 1000)%Z
  | None => None
  end.

End VideoDetailPage.

(** ** More sample inputs *)

Module More.

Definition clip : File := {| name := "clip.mp4"; size := 1024 |}.

(** The video workspace with [clip] chosen and no job. *)
Definition chosen_state : State := handleFileChange (Some clip) initial.



(** A 413 answer with a body. *)
Definition too_large : Response :=
  {| ok := false; text := "Payload Too Large"; json := None |}.

(** A status payload of a finished job. *)
Definition completed_payload : gmap string value :=
  list_to_map [("status", VStr "completed"); ("progress", VNum (num 100));
               ("annotated_video_url", VStr "https://storage.example/anpr-video/out.mp4");
               ("vehicle_count", VNum (num 12)); ("plate_count", VNum (num 7))].

End More.

Import More.

(** ** Uploads and the size limit *)

Module Uploads.

(** The request is not an upload of a video above [MAX_VIDEO_SIZE]. *)
Definition within_limit (r : request) : bool :=
  match r with
  | PostInferVideo _ _ _ f => (size f <=? MAX_VIDEO_SIZE)%N
  | _ => true
  end.

(** The chosen file, if any, is not above [MAX_VIDEO_SIZE]. *)
Definition file_within_limit (st : State) : bool :=
  match file st with
  | Some f => (size f <=? MAX_VIDEO_SIZE)%N
  | None => true
  end.

End Uploads.

Import Uploads.

(** ** The job state machine of the detection service *)

Module JobStateMachine.











End JobStateMachine.

(** ** The video workspace with requests in flight *)

Module VideoAsync.

(** A handler that has sent its request and waits for the answer: the
    interval callback of the polling effect (with the job it closes over),
    [handleRun] (with the file and the task it closes over), or
    [handleCancel]. *)
Inductive awaited : Type :=
| StatusAwaited (job : value)
| UploadAwaited (f : File) (t : Task)
| CancelAwaited (job : value).

(** The component together with the requests that are in flight, each
    under the number it was sent with. *)
Record AState : Type := mkAState {
  page : State;
  awaiting : gmap nat awaited;
  next_request : nat;
}.


Definition with_page (p : State) (st : AState) : AState :=
  {| page := p; awaiting := awaiting st; next_request := next_request st |}.

Definition send (a : awaited) (st : AState) : AState :=
  {| page := page st; awaiting := <[next_request st := a]> (awaiting st);
     next_request := S (next_request st) |}.

Definition settle (rid : nat) (st : AState) : AState :=
  {| page := page st; awaiting := delete rid (awaiting st);
     next_request := next_request st |}.

(** What the user and the browser can do: choose a file, press a button
    that is rendered and enabled, an interval fires, the answer to a request
    in flight arrives. *)
Inductive action : Type :=
| ChooseFile (f : option File)
| ClickRemove
| ClickTask (t : Task)
| ClickRun
| ClickCancel
| IntervalFires (id : nat)
| Answered (rid : nat) (net : fetched).

Section Steps.

Variable env : ProcessEnv.

(** [handleRun] up to [await inferVideo(file, task)]. *)
Definition handleRun_sent (st : AState) : AState * list request :=
  match file (page st) with
  | None => (with_page (setError (Some "Select a video first") (page st)) st, [])
  | Some f =>
      let p1 := resetJob (setError None (setLoading true (page st))) in
      if String.eqb (API_URL env) "" then
        (with_page (setLoading false (setError (Some "Backend URL not configured") p1)) st, [])
      else
        (send (UploadAwaited f (task (page st))) (with_page p1 st),
         [PostInferVideo (API_URL env) (task (page st)) None f])
  end.

(** [handleRun] from the answer on, in the state of the page at that
    time. *)
Definition handleRun_answered (f : File) (t : Task) (net : fetched) (p : State) : State :=
  setLoading false
    match resp ← (inferVideo env f t None net).2; getProp resp "job_id" with
    | Ok job =>
        setResult (obj [("job_id", job); ("status", VStr "upload_received");
                        ("progress", VNum (num 0))])
                  (setJobId job p)
    | Throw err =>
        setError (Some (text_or (exn_message err) "Failed to start inference")) p
    end.

(** [handleCancel] up to [await fetch(...)]. *)
Definition handleCancel_sent (st : AState) : AState * list request :=
  if negb (truthy (jobId (page st))) then (st, [])
  else
    (send (CancelAwaited (jobId (page st))) (with_page (setCanceling true (page st)) st),
     [PostVideoCancel (jobId (page st))]).

(** [handleCancel] from the answer on, whatever the answer is. *)
Definition handleCancel_answered (p : State) : State :=
  resetJob (setCanceling false p).

(** The interval callback up to [await getVideoStatus(jobId)]. *)
Definition interval_sent (job : value) (st : AState) : AState * list request :=
  if String.eqb (API_URL env) "" then (st, [])
  else (send (StatusAwaited job) st, [GetVideoStatus (API_URL env) job]).

(** The interval callback from the answer on: it updates the result and
    clears whatever interval [pollingRef] holds at that time. *)
Definition interval_answered (job : value) (net : fetched) (p : State) : State :=
  match (getVideoStatus env job net).2 with
  | Ok status =>
      let p1 := setResult (poll_update (result p) status) p in
      if is_terminal status then
        match pollingRef p1 with
        | Some id => set_pollingRef None (clearInterval id p1)
        | None => p1
        end
      else p1
  | Throw _ => p
  end.

Definition answered (a : awaited) (net : fetched) (p : State) : State :=
  match a with
  | StatusAwaited job => interval_answered job net p
  | UploadAwaited f t => handleRun_answered f t net p
  | CancelAwaited _ => handleCancel_answered p
  end.

(** One action, when it can happen: the Remove button is rendered while a
    file is chosen, the Run button is enabled unless [run_disabled], the
    Cancel button is part of the processing overlay, an interval fires
    while it is live, and an answer arrives for a request in flight. *)
Definition astep (ev : action) (st : AState) : option (AState * list request) :=
  match ev with
  | ChooseFile f => Some (with_page (handleFileChange f (page st)) st, [])
  | ClickRemove =>
      if bool_decide (is_Some (file (page st)))
      then Some (with_page (handleRemove (page st)) st, [])
      else None
  | ClickTask t => Some (with_page (setTask t (page st)) st, [])
  | ClickRun => if run_disabled (page st) then None else Some (handleRun_sent st)
  | ClickCancel => if overlay_shown (page st) then Some (handleCancel_sent st) else None
  | IntervalFires id =>
      match timers (page st) !! id with
      | Some job => Some (interval_sent job st)
      | None => None
      end
  | Answered rid net =>
      match awaiting st !! rid with
      | Some a => Some (with_page (answered a net (page st)) (settle rid st), [])
      | None => None
      end
  end.


(** The state after an action; an action that cannot happen changes
    nothing. *)
Definition after (ev : action) (st : AState) : AState :=
  match astep ev st with
  | Some (st', _) => st'
  | None => st
  end.

(** The requests sent over a run of actions; actions that cannot happen
    are skipped. *)
Fixpoint requests_of (evs : list action) (st : AState) : list request :=
  match evs with
  | [] => []
  | ev :: evs' =>
      (match astep ev st with
       | Some (_, reqs) => reqs
       | None => []
       end ++ requests_of evs' (after ev st))%list
  end.





End Steps.







End VideoAsync.

Import VideoAsync.

(** ** Sample runs with requests in flight *)

Module Scenario.


(** A file one byte above the limit. *)
Definition big_file : File := {| name := "big.mp4"; size := 209715201 |}.













(** A payload of the shape of section 6 of the specification:
    [{ detections[], vehicle_count, plate_count, annotated_image_url }]. *)
Definition listed_payload : value :=
  obj [("detections",
        VArr [obj [("bbox", VArr [VNum (num 10); VNum (num 20); VNum (num 110); VNum (num 60)]);
                   ("score", VNum (Q2Qc (4 # 5))); ("class_id", VNum (num 2))]]);
       ("vehicle_count", VNum (num 1));
       ("plate_count", VNum (num 0));
       ("annotated_image_url", VStr "https://storage.example/anpr-frames/frame-3.jpg")].

End Scenario.

Import Scenario.

(** * Properties *)

(** ** Values *)

Lemma Qc_eqb_eq (x y : Qc) : Qeq_bool x y = true → x = y.
Proof. intros H. apply Qc_is_canon. by apply Qeq_bool_iff. Qed.

Lemma strict_eq_eq (a b : value) : strict_eq a b = true → a = b.
Proof.
  destruct a, b; simpl; try discriminate; try reflexivity.
  - intros H. apply Bool.eqb_prop in H. by subst.
  - intros H. by rewrite (Qc_eqb_eq _ _ H).
  - intros H. apply String.eqb_eq in H. by subst.
Qed.

Lemma get_obj (m : gmap string value) (k : string) :
  get (VObj m) k = default VUndef (m !! k).
Proof. reflexivity. Qed.

Lemma getProp_Ok (v : value) (k : string) (x : value) :
  getProp v k = Ok x → nullish v = false ∧ x = get v k.
Proof. unfold getProp. destruct (nullish v); [discriminate | intros [= <-]; done]. Qed.

Lemma coalesce_percent (v : value) :
  nullish v = true ∨ is_percent v = true →
  is_percent (coalesce v (VNum (num 0))) = true.
Proof.
  unfold coalesce. intros [H | H].
  - rewrite H. reflexivity.
  - destruct v; try discriminate. exact H.
Qed.

(** ** lib/api.ts *)

Lemma API_URL_nonempty (env : ProcessEnv) : String.eqb (API_URL env) "" = false.
Proof.
  unfold API_URL. destruct (env !! "NEXT_PUBLIC_BACKEND_URL") as [url|]; [|reflexivity].
  destruct (String.eqb url "") eqn:E; [reflexivity | exact E].
Qed.

Lemma getVideoStatus_ok (env : ProcessEnv) (jobId : value) (res : Response) (data : value) :
  ok res = true → json res = Some data →
  getVideoStatus env jobId (Responded res)
  = ([GetVideoStatus (API_URL env) jobId], normalizeStatus data).
Proof.
  intros Hok Hjson. unfold getVideoStatus. rewrite API_URL_nonempty.
  simpl. unfold mbind, outcome_bind. simpl. rewrite Hok. simpl.
  unfold res_json. rewrite Hjson. reflexivity.
Qed.

Lemma normalizeStatus_Ok (data s : value) :
  normalizeStatus data = Ok s →
  s = VObj (<["progress" := coalesce (get data "progress") (VNum (num 0))]> (own_props data)).
Proof.
  unfold normalizeStatus, getProp. destruct (nullish data); [discriminate|].
  simpl. by intros [= <-].
Qed.

(** C1, as stated, fails: a status payload whose progress is 150 comes out
    of [getVideoStatus] with progress 150, which is not between 0 and 100. *)
Lemma getVideoStatus_progress_unbounded :
  ∃ s, (getVideoStatus ∅ (VStr "job-1") (ok_json status_150)).2 = Ok s
       ∧ get s "progress" = VNum (num 150)
       ∧ is_percent (get s "progress") = false.
Proof. eexists. repeat split; reflexivity. Qed.

(** C1, amended: for every JSON payload of the status endpoint, the value
    [getVideoStatus] produces has as progress the payload's progress when
    that is present and not null, and 0 otherwise; it is a number between 0
    and 100 whenever the payload's progress is missing, null, or a number
    between 0 and 100. *)
Theorem getVideoStatus_progress (env : ProcessEnv) (jobId : value) (res : Response)
    (data s : value) :
  ok res = true → json res = Some data →
  (getVideoStatus env jobId (Responded res)).2 = Ok s →
  get s "progress" = coalesce (get data "progress") (VNum (num 0))
  ∧ (nullish (get data "progress") = true ∨ is_percent (get data "progress") = true →
     is_percent (get s "progress") = true).
Proof.
  intros Hok Hjson Hs. rewrite (getVideoStatus_ok _ _ _ _ Hok Hjson) in Hs.
  apply normalizeStatus_Ok in Hs. subst s.
  rewrite get_obj, lookup_insert_eq. simpl. split; [reflexivity|].
  apply coalesce_percent.
Qed.

Lemma getVideoStatus_progress_witness :
  get (obj [("status", VStr "processing"); ("progress", VNum (num 0))]) "progress"
  = coalesce (get status_bare "progress") (VNum (num 0))
  ∧ (nullish (get status_bare "progress") = true
     ∨ is_percent (get status_bare "progress") = true →
     is_percent (get (obj [("status", VStr "processing"); ("progress", VNum (num 0))])
                     "progress") = true).
Proof.
  apply (getVideoStatus_progress ∅ (VStr "job-1")
           {| ok := true; text := ""; json := Some status_bare |}
           status_bare
           (obj [("status", VStr "processing"); ("progress", VNum (num 0))]));
    reflexivity.
Defined.

(** C9: for every JSON payload of the status endpoint (a JSON object),
    [getVideoStatus] yields an object that agrees with the payload on every
    field except progress; a missing or null progress becomes 0 and a
    numeric progress, 0 included, is passed through unchanged. *)
Theorem getVideoStatus_frame (env : ProcessEnv) (jobId : value) (res : Response)
    (payload : gmap string value) :
  ok res = true → json res = Some (VObj payload) →
  ∃ s : gmap string value,
    (getVideoStatus env jobId (Responded res)).2 = Ok (VObj s)
    ∧ (∀ k, k ≠ "progress" → s !! k = payload !! k)
    ∧ (payload !! "progress" = None ∨ payload !! "progress" = Some VNull →
       s !! "progress" = Some (VNum (num 0)))
    ∧ (∀ q, payload !! "progress" = Some (VNum q) → s !! "progress" = Some (VNum q)).
Proof.
  intros Hok Hjson. rewrite (getVideoStatus_ok _ _ _ _ Hok Hjson).
  eexists. split; [reflexivity|]. simpl. split; [|split].
  - intros k Hk. by rewrite lookup_insert_ne.
  - intros [H | H]; rewrite lookup_insert_eq, H; reflexivity.
  - intros q H. rewrite lookup_insert_eq, H. reflexivity.
Qed.

Lemma getVideoStatus_frame_witness :
  ∃ s : gmap string value,
    (getVideoStatus ∅ (VStr "job-1")
       (Responded {| ok := true; text := "";
                     json := Some (VObj {[ "status" := VStr "processing" ]}) |})).2
    = Ok (VObj s)
    ∧ (∀ k, k ≠ "progress" → s !! k = ({[ "status" := VStr "processing" ]} : gmap string value) !! k)
    ∧ (({[ "status" := VStr "processing" ]} : gmap string value) !! "progress" = None
       ∨ ({[ "status" := VStr "processing" ]} : gmap string value) !! "progress" = Some VNull →
       s !! "progress" = Some (VNum (num 0)))
    ∧ (∀ q, ({[ "status" := VStr "processing" ]} : gmap string value) !! "progress"
            = Some (VNum q) → s !! "progress" = Some (VNum q)).
Proof.
  apply (getVideoStatus_frame ∅ (VStr "job-1")
           {| ok := true; text := ""; json := Some (VObj {[ "status" := VStr "processing" ]}) |}
           {[ "status" := VStr "processing" ]}); reflexivity.
Defined.

(** ** inferImage *)

Lemma bind_Ok {A B} (m : outcome A) (k : A → outcome B) (b : B) :
  (m ≫= k) = Ok b → ∃ a, m = Ok a ∧ k a = Ok b.
Proof. destruct m as [a|e]; [eauto | discriminate]. Qed.

Lemma mapM_total {A B} (f : A → outcome B) (P : A → B → Prop) (l : list A) :
  Forall (fun x => ∃ y, f x = Ok y ∧ P x y) l →
  ∃ l', mapM f l = Ok l' ∧ Forall2 P l l'.
Proof.
  induction 1 as [|x l [y [Hy HP]] _ [l' [Hl' HF]]].
  - exists []. split; [reflexivity | constructor].
  - exists (y :: l'). split; [|by constructor].
    simpl. rewrite Hy. simpl. rewrite Hl'. reflexivity.
Qed.

Lemma getProp_non_nullish (v : value) (k : string) :
  nullish v = false → getProp v k = Ok (get v k).
Proof. unfold getProp. by intros ->. Qed.

Lemma truthy_non_nullish (v : value) : truthy v = true → nullish v = false.
Proof. by destruct v. Qed.

Lemma bbox_of_total (v : value) (field : string) :
  nullish v = false → nullish (get v field) = false →
  ∃ a b c d, bbox_of v field = Ok (VArr [a; b; c; d]).
Proof.
  intros Hv Hf. unfold bbox_of, getProp2.
  repeat rewrite (getProp_non_nullish v field Hv). simpl.
  repeat rewrite (getProp_non_nullish (get v field) _ Hf). simpl. eauto.
Qed.

Lemma vehicle_detection_total (v : value) :
  nullish v = false → nullish (get v "bbox_vehicle") = false →
  ∃ d, vehicle_detection v = Ok d.
Proof.
  intros Hv Hb. unfold vehicle_detection.
  destruct (bbox_of_total v "bbox_vehicle" Hv Hb) as (a & b & c & d & ->). simpl.
  repeat rewrite (getProp_non_nullish v _ Hv). simpl. eauto.
Qed.

Lemma plate_detection_total (p : value) :
  nullish p = false → ∃ d, plate_detection p = Ok d ∧ plate_defaults p d.
Proof.
  intros Hp. unfold plate_detection, plate_defaults.
  repeat rewrite (getProp_non_nullish p _ Hp). simpl.
  destruct (truthy (get p "bbox_plate")) eqn:Hbp.
  - destruct (bbox_of_total p "bbox_plate" Hp (truthy_non_nullish _ Hbp))
      as (a & b & c & d & ->). simpl.
    eexists. split; [reflexivity|]. split; [reflexivity|]. split; [discriminate|].
    intros ->. reflexivity.
  - destruct (truthy (get p "bbox_vehicle")) eqn:Hbv.
    + destruct (bbox_of_total p "bbox_vehicle" Hp (truthy_non_nullish _ Hbv))
        as (a & b & c & d & ->). simpl.
      eexists. split; [reflexivity|]. split; [reflexivity|]. split; [discriminate|].
      intros ->. reflexivity.
    + simpl. eexists. split; [reflexivity|]. split; [reflexivity|]. split; [reflexivity|].
      intros ->. reflexivity.
Qed.

Lemma Forall_forallb {A} (f : A → bool) (l : list A) :
  forallb f l = true → Forall (fun x => f x = true) l.
Proof. intros H. apply Forall_forall. intros x Hx. eapply forallb_forall; eauto. by apply list_elem_of_In. Qed.

Lemma array_map_plates (ps : list value) :
  forallb (fun p => negb (nullish p)) ps = true →
  ∃ ds, array_map plate_detection (VArr ps) = Ok (VArr ds) ∧ Forall2 plate_defaults ps ds.
Proof.
  intros H. apply Forall_forallb in H.
  destruct (mapM_total plate_detection plate_defaults ps) as (ds & Hds & HF).
  - eapply Forall_impl; [exact H|]. intros p Hp. apply plate_detection_total.
    by apply negb_true_iff.
  - exists ds. split; [|exact HF]. simpl. rewrite Hds. reflexivity.
Qed.

Lemma array_map_vehicles (vs : list value) :
  forallb (fun v => negb (nullish v) && negb (nullish (get v "bbox_vehicle"))) vs = true →
  ∃ ds, array_map vehicle_detection (VArr vs) = Ok (VArr ds).
Proof.
  intros H. apply Forall_forallb in H.
  destruct (mapM_total vehicle_detection (fun _ _ => True) vs) as (ds & Hds & _).
  - eapply Forall_impl; [exact H|]. intros v Hv. apply andb_prop in Hv as [H1 H2].
    destruct (vehicle_detection_total v) as [d Hd]; [by apply negb_true_iff ..|].
    eauto.
  - exists ds. simpl. rewrite Hds. reflexivity.
Qed.

Lemma plates_branch (data : value) :
  nullish data = false → plates_ok (get data "plates") = true →
  ∃ ds, (plates ← getProp data "plates";
         if truthy plates then array_map plate_detection plates else Ok (VArr []))
        = Ok (VArr ds)
        ∧ (∀ ps, get data "plates" = VArr ps → Forall2 plate_defaults ps ds)
        ∧ (truthy (get data "plates") = false → ds = []).
Proof.
  intros Hd Hok. repeat rewrite (getProp_non_nullish data _ Hd). simpl.
  unfold plates_ok in Hok. destruct (truthy (get data "plates")) eqn:Ht; simpl in Hok.
  - destruct (get data "plates") as [| | | | |ps|] eqn:Hp; try discriminate.
    destruct (array_map_plates ps Hok) as (ds & Hds & HF).
    exists ds. split; [exact Hds|]. split; [|discriminate].
    intros ps' [= <-]. exact HF.
  - exists []. split; [reflexivity|]. split; [|reflexivity].
    intros ps Hps. rewrite Hps in Ht. discriminate.
Qed.

Lemma detections_of_total (task : Task) (data : value) :
  payload_ok task data = true →
  ∃ ds, detections_of task data = Ok (VArr ds)
        ∧ (task = plate_recognize → ∀ ps, get data "plates" = VArr ps →
           Forall2 plate_defaults ps ds)
        ∧ (truthy (getOpt (get data "raw_meta") "vehicles") = false →
           truthy (get data "plates") = false → ds = []).
Proof.
  unfold payload_ok. intros H. apply andb_prop in H as [Hd H].
  apply negb_true_iff in Hd. unfold detections_of. destruct task.
  - unfold getProp2. repeat rewrite (getProp_non_nullish data _ Hd). simpl.
    destruct (truthy (getOpt (get data "raw_meta") "vehicles")) eqn:Hv.
    +
      assert (Hr : nullish (get data "raw_meta") = false).
      { unfold getOpt in Hv. by destruct (nullish (get data "raw_meta")). }
      rewrite (getProp_non_nullish _ _ Hr). simpl.
      unfold getOpt in H, Hv. rewrite Hr in H, Hv. unfold vehicles_ok in H.
      destruct (get (get data "raw_meta") "vehicles") as [| | | | |vs|] eqn:Hvs;
        try discriminate.
      destruct (array_map_vehicles vs H) as (ds & Hds).
      exists ds. split; [exact Hds|]. split; discriminate.
    + destruct (plates_branch data Hd H) as (ds & Hds & HF & He).
      rewrite (getProp_non_nullish data _ Hd) in Hds.
      exists ds. split; [exact Hds|]. split; [discriminate|]. intros _. exact He.
  - simpl. destruct (plates_branch data Hd H) as (ds & Hds & HF & He).
    exists ds. split; [exact Hds|]. split; [intros _; exact HF|]. intros _. exact He.
Qed.

Lemma get_union (m base : gmap string value) (k : string) :
  get (VObj (m ∪ base)) k
  = match m !! k with Some v => v | None => default VUndef (base !! k) end.
Proof. rewrite get_obj, lookup_union. by destruct (m !! k), (base !! k). Qed.

Lemma or_else_truthy (a b : value) : truthy a = true → or_else a b = a.
Proof. unfold or_else. by intros ->. Qed.



Lemma transformImage_Ok (task : Task) (data r : value) :
  transformImage task data = Ok r →
  ∃ detections,
    detections_of task data = Ok detections
    ∧ r = VObj (own_props data ∪
                list_to_map [("task", get data "task");
                             ("count", get data (count_field task));
                             ("detections", detections);
                             ("storage_url", get data "image_url")]).
Proof.
  unfold transformImage. intros H.
  apply bind_Ok in H as (detections & Hd & H).
  apply bind_Ok in H as (task_field & Ht & H). apply getProp_Ok in Ht as [Hn ->].
  repeat rewrite (getProp_non_nullish data _ Hn) in H. simpl in H.
  injection H as <-. exists detections. split; [exact Hd|]. by destruct task.
Qed.

Lemma inferImage_ok (env : ProcessEnv) (file : File) (task : Task) (roi : option ROI)
    (res : Response) (data : value) :
  ok res = true → json res = Some data →
  inferImage env file task roi (Responded res)
  = ([PostInferImage (API_URL env) task roi file], transformImage task data).
Proof.
  intros Hok Hjson. unfold inferImage. rewrite API_URL_nonempty.
  simpl. rewrite Hok. simpl. unfold res_json. rewrite Hjson. reflexivity.
Qed.

(** Under [vehicle_detect] a vehicle entry without [bbox_vehicle] makes the
    transformation throw: the vehicles callback reads [v.bbox_vehicle.x1]
    without the guard the plates callback has. *)
Lemma transformImage_throws :
  payload_ok vehicle_detect vehicle_without_bbox = false
  ∧ ∃ e, transformImage vehicle_detect vehicle_without_bbox = Throw e.
Proof. split; [reflexivity|]. eexists. reflexivity. Qed.

Lemma transformImage_returns (task : Task) (data : value) :
  payload_ok task data = true →
  ∃ ds,
    detections_of task data = Ok (VArr ds)
    ∧ transformImage task data
      = Ok (VObj (own_props data ∪
                  list_to_map [("task", get data "task");
                               ("count", get data (count_field task));
                               ("detections", VArr ds);
                               ("storage_url", get data "image_url")]))
    ∧ (task = plate_recognize → ∀ ps, get data "plates" = VArr ps →
       Forall2 plate_defaults ps ds)
    ∧ (truthy (getOpt (get data "raw_meta") "vehicles") = false →
       truthy (get data "plates") = false → ds = []).
Proof.
  intros Hok. destruct (detections_of_total task data Hok) as (ds & Hds & HF & He).
  unfold payload_ok in Hok. apply andb_prop in Hok as [Hn _].
  apply negb_true_iff in Hn.
  exists ds. split; [exact Hds|]. split; [|by split].
  unfold transformImage. rewrite Hds. cbn [mbind outcome_bind].
  repeat rewrite (getProp_non_nullish data _ Hn). by destruct task.
Qed.

(** C10, as stated, fails in its last part: the payload is spread last, so
    a payload that lists its detections itself, as the payload of
    section 6 of the specification does, keeps them: with neither
    [raw_meta.vehicles] nor [plates] present the computed detections are
    the empty array, and the detections of the result are the payload's. *)
Lemma own_detections_replace_computed :
  payload_ok plate_recognize listed_payload = true
  ∧ truthy (getOpt (get listed_payload "raw_meta") "vehicles") = false
  ∧ truthy (get listed_payload "plates") = false
  ∧ detections_of plate_recognize listed_payload = Ok (VArr [])
  ∧ ∃ r, transformImage plate_recognize listed_payload = Ok r
         ∧ get r "detections" = get listed_payload "detections"
         ∧ get r "detections" ≠ VArr [].
Proof.
  repeat split; try reflexivity. eexists. repeat split; try reflexivity. discriminate.
Qed.

(** C10, amended: the transformation returns on every payload on which the
    list it maps over is well-formed ([plates] absent or an array of entries
    that are not [null]; under [vehicle_detect] with [raw_meta.vehicles]
    present, an array of entries carrying [bbox_vehicle]).  When the task is
    [plate_recognize], a plate entry missing both [bbox_plate] and
    [bbox_vehicle] yields the box [0,0,0,0], a missing confidence yields
    score 0, and every plate detection has [class_id] 0; when neither
    [raw_meta.vehicles] nor [plates] is present, the computed detections are
    the empty array.  The detections of the result are the computed ones
    unless the payload has a [detections] field of its own, which takes
    their place. *)
Theorem transformImage_total (task : Task) (data : value) :
  payload_ok task data = true →
  ∃ r ds,
    transformImage task data = Ok r
    ∧ detections_of task data = Ok (VArr ds)
    ∧ get r "detections"
      = match own_props data !! "detections" with
        | Some own => own
        | None => VArr ds
        end
    ∧ (task = plate_recognize → ∀ ps, get data "plates" = VArr ps →
       Forall2 plate_defaults ps ds)
    ∧ (truthy (getOpt (get data "raw_meta") "vehicles") = false →
       truthy (get data "plates") = false → ds = []).
Proof.
  intros Hok. destruct (transformImage_returns task data Hok) as (ds & Hds & Hr & HF & He).
  eexists _, ds. split; [exact Hr|]. split; [exact Hds|]. split; [|by split].
  rewrite get_union. by destruct (own_props data !! "detections").
Qed.

Lemma transformImage_total_witness :
  (∃ r ds,
     transformImage plate_recognize image_payload = Ok r
     ∧ get r "detections" = VArr ds
     ∧ match get image_payload "plates" with
       | VArr ps => Forall2 plate_defaults ps ds
       | _ => False
       end)
  ∧ (∃ r,
       transformImage plate_recognize listed_payload = Ok r
       ∧ detections_of plate_recognize listed_payload = Ok (VArr [])
       ∧ get r "detections" = get listed_payload "detections").
Proof.
  split.
  - destruct (transformImage_total plate_recognize image_payload eq_refl)
      as (r & ds & Hr & _ & Hdet & HF & _).
    exists r, ds. split; [exact Hr|]. split; [exact Hdet|]. exact (HF eq_refl _ eq_refl).
  - destruct (transformImage_total plate_recognize listed_payload eq_refl)
      as (r & ds & Hr & Hds & Hdet & _ & He).
    exists r. split; [exact Hr|]. rewrite (He eq_refl eq_refl) in Hds.
    split; [exact Hds | exact Hdet].
Defined.



(** The same for a payload of the shape the comment in [inferImage]
    documents: [{ task, vehicle_count, plate_count, plates, raw_meta,
    image_url }]. *)
Lemma documented_payload_result :
  ∃ r, (inferImage ∅ a_file plate_recognize None (ok_json image_payload)).2 = Ok r
       ∧ is_array (get r "detections") = true
       ∧ get r "vehicle_count" = VNum (num 1)
       ∧ get r "plate_count" = VNum (num 2)
       ∧ get r "image_url" = VStr "https://storage.example/anpr-frames/frame-1.jpg"
       ∧ get r "storage_url" = VStr "https://storage.example/anpr-frames/frame-1.jpg"
       ∧ get r "count" = VNum (num 2).
Proof. eexists. repeat split; reflexivity. Qed.

(** ** The video workspace *)

Lemma resetJob_clears (st : State) :
  jobId (resetJob st) = VNull ∧ result (resetJob st) = VNull
  ∧ pollingRef (resetJob st) = None
  ∧ file (resetJob st) = file st ∧ error (resetJob st) = error st
  ∧ loading (resetJob st) = loading st ∧ canceling (resetJob st) = canceling st.
Proof.
  unfold resetJob, setJobId, polling_effect, polling_cleanup.
  destruct (pollingRef st) as [id|] eqn:Hp; simpl;
    destruct (strict_eq (jobId st) VNull); simpl;
    destruct (truthy (jobId st)); simpl; rewrite ?Hp; simpl; repeat split; done.
Qed.

Lemma resetJob_timers (st : State) : wf st → timers (resetJob st) = ∅.
Proof.
  unfold wf, resetJob, setJobId, polling_effect, polling_cleanup.
  destruct (pollingRef st) as [id|] eqn:Hp; simpl.
  - intros [Ht Hj].
    destruct (strict_eq (jobId st) VNull); simpl; rewrite ?Hj; simpl;
      rewrite Ht; apply delete_singleton_eq.
  - intros Ht.
    destruct (strict_eq (jobId st) VNull); simpl;
      destruct (truthy (jobId st)); simpl; rewrite ?Hp; simpl; exact Ht.
Qed.

Lemma resetJob_wf (st : State) : wf st → wf (resetJob st).
Proof.
  intros H. unfold wf. destruct (resetJob_clears st) as (_ & _ & -> & _).
  by apply resetJob_timers.
Qed.

Lemma wf_ext (st st' : State) :
  pollingRef st' = pollingRef st → timers st' = timers st → jobId st' = jobId st →
  wf st → wf st'.
Proof. unfold wf. by intros -> -> ->. Qed.

Lemma setJobId_fresh (job : value) (st : State) :
  jobId st = VNull → pollingRef st = None → timers st = ∅ →
  wf (setJobId job st) ∧ jobId (setJobId job st) = job
  ∧ result (setJobId job st) = result st
  ∧ (truthy job = true → pollingRef (setJobId job st) = Some (next_timer st)).
Proof.
  intros Hj Hp Ht. unfold wf, setJobId, polling_effect, polling_cleanup.
  rewrite Hj. destruct (strict_eq VNull job) eqn:He; simpl.
  - rewrite Hp. destruct job; try discriminate. repeat split; done.
  - destruct (truthy job) eqn:Htr; simpl.
    + rewrite Ht, insert_empty. repeat split; done.
    + rewrite Hp. repeat split; done.
Qed.

Lemma handleFileChange_wf (f : option File) (st : State) :
  wf st → wf (handleFileChange f st).
Proof.
  intros H. unfold handleFileChange.
  destruct f as [f'|]; [destruct (MAX_VIDEO_SIZE <? size f')%N|];
    try (apply resetJob_wf); by eapply wf_ext; [..|exact H].
Qed.

Lemma handleRun_wf (env : ProcessEnv) (net : fetched) (st : State) :
  wf st → wf (handleRun env net st).1.
Proof.
  intros H. unfold handleRun. destruct (file st) as [f|]; simpl;
    [|by eapply wf_ext; [..|exact H]].
  destruct (inferVideo env f (task st) None net) as [reqs r]. simpl.
  set (st1 := resetJob (setError None (setLoading true st))).
  assert (H1 : wf st1) by (apply resetJob_wf; by eapply wf_ext; [..|exact H]).
  destruct (resetJob_clears (setError None (setLoading true st))) as (Hj & _ & Hp & _).
  assert (Ht : timers st1 = ∅) by (apply resetJob_timers; by eapply wf_ext; [..|exact H]).
  destruct (r ≫= _) as [job|err].
  - destruct (setJobId_fresh job st1 Hj Hp Ht) as (Hwf & _).
    by eapply wf_ext; [..|exact Hwf].
  - by eapply wf_ext; [..|exact H1].
Qed.

Lemma handleCancel_Ok (net : fetched) (st : State) :
  handleCancel net st
  = Ok (if truthy (jobId st)
        then (resetJob (setCanceling false (setCanceling true st)),
              [PostVideoCancel (jobId st)])
        else (st, [])).
Proof.
  unfold handleCancel. destruct (truthy (jobId st)); simpl; [|reflexivity].
  by destruct net.
Qed.

Lemma poll_wf (env : ProcessEnv) (job : value) (net : fetched) (st : State) :
  wf st → wf (poll env job net st).1.
Proof.
  intros H. unfold poll. destruct (getVideoStatus env job net) as [reqs [status|e]]; simpl;
    [|exact H].
  destruct (is_terminal status); simpl; [|by eapply wf_ext; [..|exact H]].
  unfold wf in *. simpl. destruct (pollingRef st) as [id|] eqn:Hp; simpl.
  - destruct H as [-> _]. apply delete_singleton_eq.
  - rewrite Hp. exact H.
Qed.

Lemma step_wf (env : ProcessEnv) (ev : event) (st st' : State) (reqs : list request) :
  wf st → step env ev st = Some (st', reqs) → wf st'.
Proof.
  intros H. destruct ev; simpl.
  - intros [= <- _]. by apply handleFileChange_wf.
  - intros [= <- _]. apply resetJob_wf. by eapply wf_ext; [..|exact H].
  - intros [= <- _]. by eapply wf_ext; [..|exact H].
  - intros Hs. pose proof (handleRun_wf env net st H) as Hw.
    destruct (handleRun env net st). injection Hs as <- _. exact Hw.
  - rewrite handleCancel_Ok. intros [= Hs]. destruct (truthy (jobId st)).
    + injection Hs as <- _. apply resetJob_wf. by eapply wf_ext; [..|exact H].
    + injection Hs as <- _. exact H.
  - unfold tick. destruct (timers st !! id) as [job|]; [|discriminate].
    intros Hs. pose proof (poll_wf env job net st H) as Hw.
    destruct (poll env job net st). injection Hs as <- _. exact Hw.
Qed.

Lemma reachable_wf (env : ProcessEnv) (st : State) : reachable env st → wf st.
Proof.
  induction 1 as [|ev st st' reqs _ IH Hs]; [reflexivity|]. by eapply step_wf.
Qed.

Lemma getVideoStatus_request (env : ProcessEnv) (job : value) (net : fetched) :
  (getVideoStatus env job net).1 = [GetVideoStatus (API_URL env) job].
Proof. unfold getVideoStatus. by rewrite API_URL_nonempty. Qed.

Lemma poll_request (env : ProcessEnv) (job : value) (net : fetched) (st : State) :
  (poll env job net st).2 = [GetVideoStatus (API_URL env) job].
Proof.
  unfold poll. pose proof (getVideoStatus_request env job net) as H.
  destruct (getVideoStatus env job net). exact H.
Qed.

Lemma poll_file (env : ProcessEnv) (job : value) (net : fetched) (st : State) :
  file (poll env job net st).1 = file st.
Proof.
  unfold poll. destruct (getVideoStatus env job net) as [reqs [status|e]]; simpl;
    [|reflexivity].
  destruct (is_terminal status); simpl; [|reflexivity].
  by destruct (pollingRef st).
Qed.

(** C4, as stated, fails in its last sentence: the limit does not come from
    configuration.  Whatever the process environment holds, a file change
    does the same; with a maximum upload size of 1 MiB configured, a file
    of 2 MiB is still accepted. *)
Lemma upload_limit_not_configurable :
  (∃ st, step {[ "NEXT_PUBLIC_MAX_UPLOAD_SIZE" := "1048576" ]}
              (FileChange (Some {| name := "clip.mp4"; size := 2097152 |})) initial
         = Some (st, [])
         ∧ file st = Some {| name := "clip.mp4"; size := 2097152 |}
         ∧ error st = None)
  ∧ ¬ (∃ (env1 env2 : ProcessEnv) f st,
          step env1 (FileChange f) st ≠ step env2 (FileChange f) st).
Proof.
  split.
  - eexists. repeat split; reflexivity.
  - intros (env1 & env2 & f & st & H). by apply H.
Qed.

(** C6: for every invocation of the cancel operation on an existing job,
    whatever the outcome of the cancel request and whatever the job's
    status, the operation does not throw and leaves the workspace with no
    active job: no job id, no result, no polling; cancelling again does
    nothing. *)
Theorem handleCancel_resets (net : fetched) (st : State) :
  truthy (jobId st) = true →
  ∃ st',
    handleCancel net st = Ok (st', [PostVideoCancel (jobId st)])
    ∧ jobId st' = VNull ∧ result st' = VNull ∧ pollingRef st' = None
    ∧ canceling st' = false ∧ effectiveStatus st' = VNull
    ∧ (wf st → timers st' = ∅)
    ∧ (∀ net', handleCancel net' st' = Ok (st', [])).
Proof.
  intros Hj. rewrite handleCancel_Ok, Hj. eexists. split; [reflexivity|].
  destruct (resetJob_clears (setCanceling false (setCanceling true st)))
    as (H1 & H2 & H3 & _ & _ & _ & H4).
  repeat split; try done.
  - unfold effectiveStatus. by rewrite H1.
  - intros Hwf. apply resetJob_timers. by eapply wf_ext; [..|exact Hwf].
  - intros net'. by rewrite handleCancel_Ok, H1.
Qed.

Lemma handleCancel_resets_witness :
  ∃ st',
    handleCancel (NetworkError "Failed to fetch") polling_state
    = Ok (st', [PostVideoCancel (jobId polling_state)])
    ∧ jobId st' = VNull ∧ result st' = VNull ∧ pollingRef st' = None
    ∧ canceling st' = false ∧ effectiveStatus st' = VNull
    ∧ (wf polling_state → timers st' = ∅)
    ∧ (∀ net', handleCancel net' st' = Ok (st', [])).
Proof. apply (handleCancel_resets (NetworkError "Failed to fetch") polling_state). reflexivity. Defined.

Lemma poll_update_same (prev s : value) (k : string) :
  k = "status" ∨ k = "progress" → get (poll_update prev s) k = get s k.
Proof.
  intros Hk. unfold poll_update.
  destruct (truthy prev); simpl; [|reflexivity].
  destruct (strict_eq (get prev "status") (get s "status")) eqn:E1; simpl; [|reflexivity].
  destruct (strict_eq (get prev "progress") (get s "progress")) eqn:E2; simpl; [|reflexivity].
  repeat (match goal with |- context [negb ?b] => destruct b; simpl; [|reflexivity] end).
  destruct Hk as [-> | ->]; by apply strict_eq_eq.
Qed.

Lemma poll_update_non_nullish (prev s : value) :
  nullish s = false → nullish (poll_update prev s) = false.
Proof.
  intros Hs. unfold poll_update.
  destruct (truthy prev) eqn:Hp; simpl; [|exact Hs].
  repeat (match goal with |- context [negb ?b] => destruct b; simpl; [|exact Hs] end).
  by apply truthy_non_nullish.
Qed.

Lemma getVideoStatus_Ok_obj (env : ProcessEnv) (job : value) (net : fetched) (s : value) :
  (getVideoStatus env job net).2 = Ok s → nullish s = false.
Proof.
  unfold getVideoStatus. rewrite API_URL_nonempty. simpl. intros H.
  apply bind_Ok in H as (res & _ & H). destruct (negb (ok res)); [discriminate|].
  apply bind_Ok in H as (data & _ & H). apply normalizeStatus_Ok in H. by subst.
Qed.

Lemma wf_timer (st : State) (id : nat) :
  wf st → pollingRef st = Some id →
  timers st !! id = Some (jobId st) ∧ truthy (jobId st) = true.
Proof.
  unfold wf. intros H Hp. rewrite Hp in H. destruct H as [-> Hj].
  by rewrite lookup_singleton_eq.
Qed.

Lemma tick_polls (env : ProcessEnv) (st : State) (id : nat) (net : fetched) :
  wf st → pollingRef st = Some id →
  tick env id net st = Some (poll env (jobId st) net st).
Proof. intros H Hp. unfold tick. by destruct (wf_timer st id H Hp) as [-> _]. Qed.

Lemma is_terminal_normalized (m : gmap string value) (p : value) :
  is_terminal (VObj (<["progress" := p]> m)) = is_terminal (VObj m).
Proof. unfold is_terminal. by rewrite !get_obj, lookup_insert_ne. Qed.

Lemma getVideoStatus_ok_json (env : ProcessEnv) (job data : value) :
  getVideoStatus env job (ok_json data)
  = ([GetVideoStatus (API_URL env) job], normalizeStatus data).
Proof. by apply getVideoStatus_ok. Qed.

Lemma poll_ok_json (env : ProcessEnv) (job : value) (m : gmap string value) (st : State) :
  poll env job (ok_json (VObj m)) st
  = (let st1 :=
       setResult (poll_update (result st)
                    (VObj (<["progress" := reported_progress (VObj m)]> m))) st in
     if is_terminal (VObj m) then
       match pollingRef st with
       | Some id => set_pollingRef None (clearInterval id st1)
       | None => st1
       end
     else st1,
     [GetVideoStatus (API_URL env) job]).
Proof.
  unfold poll. rewrite getVideoStatus_ok_json.
  change (normalizeStatus (VObj m))
    with (Ok (VObj (<["progress" := reported_progress (VObj m)]> m))).
  cbv beta iota. by rewrite is_terminal_normalized.
Qed.

Lemma tick_progress (env : ProcessEnv) (st : State) (id : nat) (m : gmap string value) :
  wf st → pollingRef st = Some id →
  ∃ st' reqs,
    tick env id (ok_json (VObj m)) st = Some (st', reqs)
    ∧ getOpt (result st') "progress" = reported_progress (VObj m)
    ∧ (is_terminal (VObj m) = false → wf st' ∧ pollingRef st' = Some id)
    ∧ effectiveStatus st'
      = coalesce (get (VObj m) "status") (VStr "upload_received").
Proof.
  intros Hwf Hp. rewrite (tick_polls env st id _ Hwf Hp).
  pose proof (poll_wf env (jobId st) (ok_json (VObj m)) st Hwf) as Hwf'.
  rewrite poll_ok_json in *. cbv zeta in *.
  set (s := VObj (<["progress" := reported_progress (VObj m)]> m)) in *.
  assert (Hprog : getOpt (poll_update (result st) s) "progress"
                  = reported_progress (VObj m)).
  { unfold getOpt. rewrite poll_update_non_nullish by reflexivity.
    rewrite poll_update_same by (by right). unfold s.
    by rewrite get_obj, lookup_insert_eq. }
  assert (Hstat : ∀ st0, jobId st0 = jobId st →
            result st0 = poll_update (result st) s →
            effectiveStatus st0
            = coalesce (get (VObj m) "status") (VStr "upload_received")).
  { intros st0 Hj Hr. unfold effectiveStatus. rewrite Hj, Hr.
    destruct (wf_timer st id Hwf Hp) as [_ ->]. unfold getOpt.
    rewrite poll_update_non_nullish by reflexivity.
    rewrite poll_update_same by (by left). unfold s.
    by rewrite !get_obj, lookup_insert_ne. }
  destruct (is_terminal (VObj m)); simpl in *.
  - rewrite Hp in *. eexists _, _. split; [reflexivity|]. split; [exact Hprog|].
    split; [discriminate|]. by apply Hstat.
  - eexists _, _. split; [reflexivity|]. split; [exact Hprog|].
    split; [by intros _|]. by apply Hstat.
Qed.

Lemma polling_state_reachable : reachable ∅ polling_state.
Proof.
  eapply (reachable_step ∅ (Run (ok_json (obj [("job_id", VStr "job-1")])))
            (handleFileChange (Some {| name := "clip.mp4"; size := 1024 |}) initial)
            polling_state
            (handleRun ∅ (ok_json (obj [("job_id", VStr "job-1")]))
               (handleFileChange (Some {| name := "clip.mp4"; size := 1024 |}) initial)).2).
  - eapply (reachable_step ∅ (FileChange (Some {| name := "clip.mp4"; size := 1024 |}))
              initial _ []); [constructor | reflexivity].
  - unfold polling_state. simpl step. by destruct (handleRun _ _ _).
Qed.

(** At render time the bar is capped at 100, whatever progress the result
    holds. *)
Lemma progress_bar_width_capped (st : State) (w : Qc) :
  progress_bar_width st = Some w → (w <= num 100)%Qc.
Proof.
  unfold progress_bar_width. destruct (getOpt (result st) "progress"); try discriminate.
  destruct (Qle_bool q (num 100)) eqn:E; intros [= <-].
  - by apply Qle_bool_iff.
  - apply Qle_refl.
Qed.

(** ** The geometry mapper *)

Section GeometryRoundTrip.

Import Geometry.

#[local] Open Scope Q_scope.

Lemma fit_scale_pos (input_size : Z) (r : Region) :
  (0 < input_size)%Z → no_area r = false → 0 < fit_scale input_size r.
Proof.
  intros Hs Hr. unfold no_area in Hr. apply orb_false_elim in Hr as [Hw Hh].
  apply Z.leb_gt in Hw, Hh.
  assert (Hdiv : ∀ e : Z, (0 < e)%Z → 0 < inject_Z input_size / inject_Z e).
  { intros e He. apply Qlt_shift_div_l.
    - unfold Qlt. simpl. lia.
    - rewrite Qmult_0_l. unfold Qlt. simpl. lia. }
  unfold fit_scale. destruct (Qle_bool _ _); by apply Hdiv.
Qed.

Lemma forward_invert (t : Transform) (b : BBox ModelInput) :
  ¬ scale t == 0 → bbox_eq (forward t (invert t b)) b.
Proof.
  intros Hs. unfold bbox_eq, forward, invert. cbn [bx1 by1 bx2 by2].
  repeat split; field; exact Hs.
Qed.

Lemma invert_forward (t : Transform) (b : BBox OriginalFrame) :
  ¬ scale t == 0 → bbox_eq (invert t (forward t b)) b.
Proof.
  intros Hs. unfold bbox_eq, forward, invert. cbn [bx1 by1 bx2 by2].
  repeat split; field; exact Hs.
Qed.

Lemma whole_frame_area (f : Frame) :
  (0 < width f)%Z → (0 < height f)%Z → no_area (whole_frame f) = false.
Proof.
  intros Hw Hh. unfold no_area, whole_frame, region_width, region_height. simpl.
  apply orb_false_intro; apply Z.leb_gt; lia.
Qed.

Lemma prepare_scale (input_size : Z) (policy : Padding) (f : Frame)
    (roi : option Region) (t : Transform) :
  (0 < input_size)%Z → (0 < width f)%Z → (0 < height f)%Z →
  prepare input_size policy f roi = inr t → 0 < scale t.
Proof.
  intros Hs Hw Hh. unfold prepare. destruct roi as [r|].
  - destruct (no_area (clamp_region f r)) eqn:Ha; [discriminate|].
    intros [= <-]. simpl. by apply fit_scale_pos.
  - intros [= <-]. simpl. apply fit_scale_pos; [exact Hs|]. by apply whole_frame_area.
Qed.

End GeometryRoundTrip.

(** The scenario of the specification: a 1280 x 720 frame with the region
    (100, 100, 500, 500) and a 640 x 640 model input gives the scale 1.6,
    and the model-input box (0, 0, 64, 64) inverts to a box that starts at
    (100, 100). *)
Lemma scenario_region_scale (policy : Geometry.Padding) :
  ∃ t, Geometry.prepare 640 policy {| Geometry.width := 1280; Geometry.height := 720 |}
         (Some {| Geometry.rx1 := 100; Geometry.ry1 := 100;
                  Geometry.rx2 := 500; Geometry.ry2 := 500 |}) = inr t
       ∧ (Geometry.scale t == 16 # 10)%Q
       ∧ (Geometry.bx1 (Geometry.invert t (Geometry.mkBBox 0 0 64 64)) == 100)%Q
       ∧ (Geometry.by1 (Geometry.invert t (Geometry.mkBBox 0 0 64 64)) == 100)%Q.
Proof. destruct policy; eexists; repeat split; reflexivity. Qed.

(** C8: for every frame size, region of interest and padding policy for
    which [prepare] yields a transform, and every box inside the model
    input, mapping the box back to the frame and forward again returns it,
    and so does mapping a box of the frame forward and back.  In exact
    arithmetic the two mappings are inverse to each other: the tolerance is
    zero. *)
Theorem geometry_round_trip (input_size : Z) (policy : Geometry.Padding)
    (f : Geometry.Frame) (roi : option Geometry.Region) (t : Geometry.Transform)
    (b : Geometry.BBox Geometry.ModelInput) (o : Geometry.BBox Geometry.OriginalFrame) :
  (0 < input_size)%Z → (0 < Geometry.width f)%Z → (0 < Geometry.height f)%Z →
  Geometry.prepare input_size policy f roi = inr t →
  Geometry.bbox_eq (Geometry.forward t (Geometry.invert t b)) b
  ∧ Geometry.bbox_eq (Geometry.invert t (Geometry.forward t o)) o.
Proof.
  intros Hs Hw Hh Ht.
  pose proof (prepare_scale input_size policy f roi t Hs Hw Hh Ht) as Hpos.
  assert (Hne : ¬ (Geometry.scale t == 0)%Q).
  { intros H. rewrite H in Hpos. by apply Qlt_irrefl in Hpos. }
  split; [by apply forward_invert | by apply invert_forward].
Qed.

Lemma geometry_round_trip_witness :
  Geometry.bbox_eq
    (Geometry.forward
       (Geometry.transform_of 640 Geometry.Center
          {| Geometry.rx1 := 100; Geometry.ry1 := 100;
             Geometry.rx2 := 500; Geometry.ry2 := 400 |})
       (Geometry.invert
          (Geometry.transform_of 640 Geometry.Center
             {| Geometry.rx1 := 100; Geometry.ry1 := 100;
                Geometry.rx2 := 500; Geometry.ry2 := 400 |})
          (Geometry.mkBBox 0 80 64 (577 # 3))))
    (Geometry.mkBBox 0 80 64 (577 # 3))
  ∧ Geometry.bbox_eq
      (Geometry.invert
         (Geometry.transform_of 640 Geometry.Center
            {| Geometry.rx1 := 100; Geometry.ry1 := 100;
               Geometry.rx2 := 500; Geometry.ry2 := 400 |})
         (Geometry.forward
            (Geometry.transform_of 640 Geometry.Center
               {| Geometry.rx1 := 100; Geometry.ry1 := 100;
                  Geometry.rx2 := 500; Geometry.ry2 := 400 |})
            (Geometry.mkBBox 120 130 (901 # 7) 300)))
      (Geometry.mkBBox 120 130 (901 # 7) 300).
Proof.
  apply (geometry_round_trip 640 Geometry.Center
           {| Geometry.width := 1280; Geometry.height := 720 |}
           (Some {| Geometry.rx1 := 100; Geometry.ry1 := 100;
                    Geometry.rx2 := 500; Geometry.ry2 := 400 |})).
  - lia.
  - simpl. lia.
  - simpl. lia.
  - reflexivity.
Defined.

(** * Further properties of the client *)

(** ** lib/api.ts *)

(** X1: the backend URL is never empty: it is NEXT_PUBLIC_BACKEND_URL when
    that is set and not empty, and http://localhost:8000 otherwise.  So the
    guard "Backend URL not configured" never fires, and every call of the
    api sends its one request, to that URL. *)
Theorem API_URL_always_configured (env : ProcessEnv) (file : File) (task : Task)
    (roi : option ROI) (jobId : value) (net : fetched) :
  API_URL env ≠ ""
  ∧ (∀ url, env !! "NEXT_PUBLIC_BACKEND_URL" = Some url → url ≠ "" → API_URL env = url)
  ∧ (env !! "NEXT_PUBLIC_BACKEND_URL" = None ∨ env !! "NEXT_PUBLIC_BACKEND_URL" = Some "" →
     API_URL env = "http://localhost:8000")
  ∧ (inferImage env file task roi net).1 = [PostInferImage (API_URL env) task roi file]
  ∧ (inferVideo env file task roi net).1 = [PostInferVideo (API_URL env) task roi file]
  ∧ (getVideoStatus env jobId net).1 = [GetVideoStatus (API_URL env) jobId]
  ∧ (HomePage.pingBackend env net).1 = [HomePage.GetHealth (API_URL env)].
Proof.
  pose proof (API_URL_nonempty env) as Hne.
  split; [by apply String.eqb_neq|]. split; [|split].
  - intros url Hu Hnz. unfold API_URL. rewrite Hu.
    apply String.eqb_neq in Hnz. by rewrite Hnz.
  - unfold API_URL. by intros [-> | ->].
  - unfold inferImage, inferVideo, getVideoStatus, HomePage.pingBackend.
    rewrite Hne. repeat split.
Qed.

(** ** The video workspace: starting a job *)


Lemma setJobId_keeps (job : value) (st : State) :
  error (setJobId job st) = error st ∧ file (setJobId job st) = file st
  ∧ loading (setJobId job st) = loading st ∧ result (setJobId job st) = result st.
Proof.
  unfold setJobId, polling_effect, polling_cleanup.
  destruct (strict_eq (jobId st) job), (truthy job), (truthy (jobId st)),
    (pollingRef st); repeat split.
Qed.

Lemma no_payload_false (net : fetched) :
  no_payload net = false →
  ∃ res data, net = Responded res ∧ ok res = true ∧ json res = Some data
              ∧ nullish data = false.
Proof.
  destruct net as [m|res]; simpl; [discriminate|]. intros H.
  apply orb_false_elim in H as [Hok Hj]. apply negb_false_iff in Hok.
  destruct (json res) as [data|] eqn:Hjson; [|discriminate]. by exists res, data.
Qed.

Lemma inferVideo_job_id (env : ProcessEnv) (f : File) (t : Task) (net : fetched) :
  inferVideo env f t None net
  = ([PostInferVideo (API_URL env) t None f], (inferVideo env f t None net).2)
  ∧ (no_payload net = true →
     ∃ e, ((inferVideo env f t None net).2 ≫= λ resp, getProp resp "job_id") = Throw e
          ∧ text_or (exn_message e) "Failed to start inference" ≠ "")
  ∧ (∀ res data, net = Responded res → ok res = true → json res = Some data →
     nullish data = false →
     ((inferVideo env f t None net).2 ≫= λ resp, getProp resp "job_id")
     = Ok (get data "job_id")).
Proof.
  unfold inferVideo. rewrite API_URL_nonempty. split; [reflexivity|]. split.
  - assert (Hne : ∀ m, text_or m "Failed to start inference" ≠ "").
    { intros m. unfold text_or. destruct (String.eqb m "") eqn:E; [done|].
      by apply String.eqb_neq. }
    destruct net as [m|res]; simpl; [by eauto|].
    destruct (ok res); simpl; [|by eauto]. unfold res_json.
    destruct (json res) as [data|]; simpl; [|by eauto].
    intros Hn. unfold getProp. rewrite Hn. by eauto.
  - intros res data -> Hok Hjson Hn. simpl. rewrite Hok. simpl.
    unfold res_json. rewrite Hjson. simpl. by apply getProp_non_nullish.
Qed.








(** ** The video workspace: polling *)

Lemma getVideoStatus_no_payload (env : ProcessEnv) (job : value) (net : fetched) :
  no_payload net = true → ∃ e, (getVideoStatus env job net).2 = Throw e.
Proof.
  unfold getVideoStatus. rewrite API_URL_nonempty.
  destruct net as [m|res]; simpl; [by eauto|].
  destruct (ok res); simpl; [|by eauto]. unfold res_json.
  destruct (json res) as [data|]; simpl; [|by eauto].
  intros Hn. unfold normalizeStatus, getProp. rewrite Hn. by eauto.
Qed.

(** X5: a status request that gives no payload (it fails, the response is
    not ok, the body is not JSON, or the payload is null) is ignored: the
    request was sent, the workspace is exactly as before, and the interval
    stays. *)
Theorem failed_poll_ignored (env : ProcessEnv) (st : State) (id : nat) (net : fetched) :
  wf st → pollingRef st = Some id → no_payload net = true →
  tick env id net st = Some (st, [GetVideoStatus (API_URL env) (jobId st)]).
Proof.
  intros Hwf Hp Hnet. rewrite (tick_polls env st id net Hwf Hp).
  destruct (getVideoStatus_no_payload env (jobId st) net Hnet) as [e He].
  pose proof (getVideoStatus_request env (jobId st) net) as Hreq.
  unfold poll. destruct (getVideoStatus env (jobId st) net) as [reqs r].
  simpl in He, Hreq. by subst.
Qed.

Lemma failed_poll_ignored_witness :
  tick ∅ 1 (Responded too_large) polling_state
  = Some (polling_state, [GetVideoStatus (API_URL ∅) (jobId polling_state)]).
Proof.
  apply (failed_poll_ignored ∅ polling_state 1 (Responded too_large)).
  - vm_compute. split; reflexivity.
  - reflexivity.
  - reflexivity.
Defined.

Lemma poll_update_field (prev s : value) (k : string) :
  k ∈ compared_fields → get (poll_update prev s) k = get s k.
Proof.
  intros Hk. unfold poll_update.
  destruct (truthy prev); simpl; [|reflexivity].
  destruct (strict_eq (get prev "status") (get s "status")) eqn:E1; simpl; [|reflexivity].
  destruct (strict_eq (get prev "progress") (get s "progress")) eqn:E2; simpl; [|reflexivity].
  destruct (strict_eq (get prev "annotated_video_url") (get s "annotated_video_url")) eqn:E3;
    simpl; [|reflexivity].
  destruct (strict_eq (get prev "vehicle_count") (get s "vehicle_count")) eqn:E4;
    simpl; [|reflexivity].
  destruct (strict_eq (get prev "plate_count") (get s "plate_count")) eqn:E5;
    simpl; [|reflexivity].
  unfold compared_fields in Hk.
  repeat (apply elem_of_cons in Hk as [-> | Hk]; [by apply strict_eq_eq|]).
  by apply elem_of_nil in Hk.
Qed.

(** X6: the value the polling callback stores is the previous result or the
    new status, and on each of the five fields it compares (status,
    progress, annotated_video_url, vehicle_count, plate_count) it agrees
    with the new status.  It is the previous result itself, unchanged, when
    there is one and the five fields are strictly equal; a change in any
    other field alone is not taken over. *)
Theorem poll_update_shows_latest (prev s : value) :
  (poll_update prev s = prev ∨ poll_update prev s = s)
  ∧ (∀ k, k ∈ compared_fields → get (poll_update prev s) k = get s k)
  ∧ (truthy prev = false → poll_update prev s = s)
  ∧ (truthy prev = true →
     (∀ k, k ∈ compared_fields → strict_eq (get prev k) (get s k) = true) →
     poll_update prev s = prev).
Proof.
  split; [|split; [exact (poll_update_field prev s)|split]].
  - unfold poll_update. destruct (truthy prev); simpl; [|by right].
    repeat (match goal with |- context [negb ?b] => destruct b; simpl; [|by right] end).
    by left.
  - intros H. unfold poll_update. by rewrite H.
  - intros Ht Hall. unfold poll_update. rewrite Ht. simpl.
    rewrite !Hall by (unfold compared_fields; set_solver). reflexivity.
Qed.

(** X7: in every state the video workspace can reach, at most one interval
    is live: it is the one [pollingRef] holds and it polls the current job,
    which is set; when [pollingRef] is null no interval is live. *)
Theorem one_live_interval (env : ProcessEnv) (st : State) :
  reachable env st →
  (base.size (timers st) ≤ 1)%nat
  ∧ (∀ id job, timers st !! id = Some job →
       pollingRef st = Some id ∧ job = jobId st ∧ truthy job = true)
  ∧ (pollingRef st = None → timers st = ∅).
Proof.
  intros H. apply reachable_wf in H. unfold wf in H.
  destruct (pollingRef st) as [id0|].
  - destruct H as [Ht Hj]. rewrite Ht. split; [rewrite map_size_singleton; lia|].
    split; [|discriminate]. intros id job Hl.
    apply lookup_singleton_Some in Hl as [-> <-]. by repeat split.
  - rewrite H. split; [rewrite map_size_empty; lia|]. split; [|done].
    intros id job Hl. by rewrite lookup_empty in Hl.
Qed.

Lemma one_live_interval_witness :
  (base.size (timers polling_state) ≤ 1)%nat
  ∧ (∀ id job, timers polling_state !! id = Some job →
       pollingRef polling_state = Some id ∧ job = jobId polling_state
       ∧ truthy job = true)
  ∧ (pollingRef polling_state = None → timers polling_state = ∅).
Proof.
  apply (one_live_interval ∅ polling_state).
  eapply (reachable_step ∅ (Run (ok_json (obj [("job_id", VStr "job-1")])))
            (handleFileChange (Some {| name := "clip.mp4"; size := 1024 |}) initial)
            polling_state
            [PostInferVideo "http://localhost:8000" vehicle_detect None
               {| name := "clip.mp4"; size := 1024 |}]).
  - eapply (reachable_step ∅ (FileChange (Some {| name := "clip.mp4"; size := 1024 |}))
              initial _ []); [constructor | reflexivity].
  - by vm_compute.
Defined.

Lemma poll_jobId (env : ProcessEnv) (job : value) (net : fetched) (st : State) :
  jobId (poll env job net st).1 = jobId st ∧ loading (poll env job net st).1 = loading st.
Proof.
  unfold poll. destruct (getVideoStatus env job net) as [reqs [status|e]]; simpl;
    [|by split].
  destruct (is_terminal status); simpl; [|by split].
  by destruct (pollingRef st).
Qed.

(** X8: polls never hand the Run button back: over any run of interval
    ticks the job id and the chosen file stay as they are, so while a job id
    is set, also after the job completed or failed, the Run button stays
    disabled. *)
Theorem polls_keep_run_disabled (env : ProcessEnv) (evs : list event) (st : State) :
  forallb is_tick evs = true → truthy (jobId st) = true →
  jobId (run env evs st).1 = jobId st
  ∧ file (run env evs st).1 = file st
  ∧ run_disabled (run env evs st).1 = true.
Proof.
  intros Hevs Hj.
  assert (H : jobId (run env evs st).1 = jobId st ∧ file (run env evs st).1 = file st).
  { revert st Hj. induction evs as [|ev evs IH]; intros st Hj; [by split|].
    simpl in Hevs. apply andb_prop in Hevs as [Hev Hevs]. destruct ev; try discriminate.
    simpl. unfold tick. destruct (timers st !! id) as [job|]; [|by apply IH].
    pose proof (poll_jobId env job net st) as [Hpj _].
    pose proof (poll_file env job net st) as Hpf.
    destruct (poll env job net st) as [st' reqs]. simpl in Hpj, Hpf.
    assert (Hj' : truthy (jobId st') = true) by (by rewrite Hpj).
    destruct (IH Hevs st' Hj') as [H1 H2].
    destruct (run env evs st') as [st'' reqs']. simpl in *.
    split; congruence. }
  destruct H as [H1 H2]. split; [exact H1|]. split; [exact H2|].
  unfold run_disabled. rewrite H1, Hj. by rewrite orb_true_r.
Qed.

Lemma polls_keep_run_disabled_witness :
  jobId (run ∅ [Tick 1 (ok_json (VObj completed_payload)); Tick 1 (ok_json status_bare)]
             polling_state).1 = jobId polling_state
  ∧ file (run ∅ [Tick 1 (ok_json (VObj completed_payload)); Tick 1 (ok_json status_bare)]
               polling_state).1 = file polling_state
  ∧ run_disabled
      (run ∅ [Tick 1 (ok_json (VObj completed_payload)); Tick 1 (ok_json status_bare)]
           polling_state).1 = true.
Proof.
  apply (polls_keep_run_disabled ∅
           [Tick 1 (ok_json (VObj completed_payload)); Tick 1 (ok_json status_bare)]
           polling_state); reflexivity.
Defined.

(** X9: when a poll reports completed or failed, the overlay with the
    Cancel button goes away while the job id stays; the text "Processing
    failed" is shown exactly for failed, and the annotated video is shown
    exactly for completed with a non-empty annotated_video_url, which is the
    URL of that response. *)
Theorem finished_job_view (env : ProcessEnv) (st : State) (id : nat)
    (m : gmap string value) :
  wf st → pollingRef st = Some id → is_terminal (VObj m) = true →
  ∃ st' reqs,
    tick env id (ok_json (VObj m)) st = Some (st', reqs)
    ∧ jobId st' = jobId st
    ∧ overlay_shown st' = false
    ∧ failed_shown st' = strict_eq (get (VObj m) "status") (VStr "failed")
    ∧ final_video st'
      = if strict_eq (get (VObj m) "status") (VStr "completed")
           && truthy (get (VObj m) "annotated_video_url")
        then Some (get (VObj m) "annotated_video_url")
        else None.
Proof.
  intros Hwf Hp Hterm. rewrite (tick_polls env st id _ Hwf Hp), poll_ok_json.
  rewrite Hterm, Hp. cbv zeta.
  set (s := VObj (<["progress" := reported_progress (VObj m)]> m)).
  set (st' := set_pollingRef None (clearInterval id (setResult (poll_update (result st) s) st))).
  exists st', [GetVideoStatus (API_URL env) (jobId st)]. split; [reflexivity|].
  destruct (wf_timer st id Hwf Hp) as [_ Hj].
  assert (Hres : ∀ k, k ∈ compared_fields → k ≠ "progress" →
            getOpt (result st') k = get (VObj m) k).
  { intros k Hk Hne. unfold getOpt. change (result st') with (poll_update (result st) s).
    rewrite poll_update_non_nullish by reflexivity.
    rewrite poll_update_field by exact Hk. unfold s.
    by rewrite !get_obj, lookup_insert_ne. }
  assert (Heff : effectiveStatus st' = get (VObj m) "status").
  { unfold effectiveStatus. change (jobId st') with (jobId st). rewrite Hj.
    rewrite Hres by (unfold compared_fields; set_solver).
    unfold is_terminal in Hterm. apply orb_prop in Hterm as [H | H];
      apply strict_eq_eq in H; by rewrite H. }
  split; [reflexivity|]. split; [|split].
  - unfold overlay_shown. rewrite Heff. unfold is_terminal in Hterm.
    apply orb_prop in Hterm as [-> | ->]; simpl; by rewrite ?andb_false_r.
  - unfold failed_shown. by rewrite Heff.
  - unfold final_video. rewrite Heff.
    by rewrite Hres by (unfold compared_fields; set_solver).
Qed.

Lemma finished_job_view_witness :
  ∃ st' reqs,
    tick ∅ 1 (ok_json (VObj completed_payload)) polling_state = Some (st', reqs)
    ∧ jobId st' = jobId polling_state
    ∧ overlay_shown st' = false
    ∧ failed_shown st' = strict_eq (get (VObj completed_payload) "status") (VStr "failed")
    ∧ final_video st'
      = if strict_eq (get (VObj completed_payload) "status") (VStr "completed")
           && truthy (get (VObj completed_payload) "annotated_video_url")
        then Some (get (VObj completed_payload) "annotated_video_url")
        else None.
Proof.
  apply (finished_job_view ∅ polling_state 1 completed_payload).
  - vm_compute. split; reflexivity.
  - reflexivity.
  - reflexivity.
Defined.

(** X10: choosing a file that is not too large, or pressing Remove, gives a
    clean workspace without telling the service: the file is the chosen one
    (or none), no job id, no result, no interval is left, and no request is
    sent, so a running job is dropped by the client and not cancelled. *)
Theorem new_file_drops_job (env : ProcessEnv) (st : State) (f : File) :
  wf st → (size f <= MAX_VIDEO_SIZE)%N →
  step env (FileChange (Some f)) st = Some (handleFileChange (Some f) st, [])
  ∧ file (handleFileChange (Some f) st) = Some f
  ∧ error (handleFileChange (Some f) st) = None
  ∧ jobId (handleFileChange (Some f) st) = VNull
  ∧ result (handleFileChange (Some f) st) = VNull
  ∧ pollingRef (handleFileChange (Some f) st) = None
  ∧ timers (handleFileChange (Some f) st) = ∅
  ∧ step env Remove st = Some (handleRemove st, [])
  ∧ file (handleRemove st) = None
  ∧ jobId (handleRemove st) = VNull
  ∧ result (handleRemove st) = VNull
  ∧ timers (handleRemove st) = ∅.
Proof.
  intros Hwf Hsize.
  assert (Hacc : handleFileChange (Some f) st
                 = resetJob (setError None (setFile (Some f) st))).
  { unfold handleFileChange. apply N.ltb_ge in Hsize. by rewrite Hsize. }
  split; [reflexivity|]. rewrite Hacc. unfold handleRemove.
  destruct (resetJob_clears (setError None (setFile (Some f) st)))
    as (H1 & H2 & H3 & H4 & H5 & _).
  destruct (resetJob_clears (setFile None st)) as (R1 & R2 & _ & R4 & _).
  split; [by rewrite H4|]. split; [by rewrite H5|].
  split; [exact H1|]. split; [exact H2|]. split; [exact H3|].
  split; [apply resetJob_timers; by eapply wf_ext; [..|exact Hwf]|].
  split; [reflexivity|]. split; [by rewrite R4|]. split; [exact R1|]. split; [exact R2|].
  apply resetJob_timers. by eapply wf_ext; [..|exact Hwf].
Qed.

Lemma new_file_drops_job_witness :
  step ∅ (FileChange (Some clip)) polling_state
  = Some (handleFileChange (Some clip) polling_state, [])
  ∧ file (handleFileChange (Some clip) polling_state) = Some clip
  ∧ error (handleFileChange (Some clip) polling_state) = None
  ∧ jobId (handleFileChange (Some clip) polling_state) = VNull
  ∧ result (handleFileChange (Some clip) polling_state) = VNull
  ∧ pollingRef (handleFileChange (Some clip) polling_state) = None
  ∧ timers (handleFileChange (Some clip) polling_state) = ∅
  ∧ step ∅ Remove polling_state = Some (handleRemove polling_state, [])
  ∧ file (handleRemove polling_state) = None
  ∧ jobId (handleRemove polling_state) = VNull
  ∧ result (handleRemove polling_state) = VNull
  ∧ timers (handleRemove polling_state) = ∅.
Proof.
  apply (new_file_drops_job ∅ polling_state clip).
  - vm_compute. split; reflexivity.
  - vm_compute. discriminate.
Defined.

(** ** inferImage: what the result holds *)

(** X11: [inferImage] never drops or changes a field of the payload: every
    field of the payload is in the result with the payload's value, and the
    result has no other fields than those and task, count, detections and
    storage_url. *)
Theorem inferImage_keeps_payload (env : ProcessEnv) (file : File) (task : Task)
    (roi : option ROI) (res : Response) (payload : gmap string value) (r : value) :
  ok res = true → json res = Some (VObj payload) →
  (inferImage env file task roi (Responded res)).2 = Ok r →
  (∀ k v, payload !! k = Some v → get r k = v)
  ∧ (∀ k, is_Some (own_props r !! k)
          ↔ is_Some (payload !! k) ∨ k ∈ ["task"; "count"; "detections"; "storage_url"])
  ∧ is_array r = false.
Proof.
  intros Hok Hjson Hr.
  rewrite (inferImage_ok _ _ _ _ _ _ Hok Hjson) in Hr. simpl in Hr.
  apply transformImage_Ok in Hr as (detections & _ & ->). simpl own_props.
  split; [|split; [|reflexivity]].
  - intros k v Hk. by rewrite get_union, Hk.
  - intros k. rewrite lookup_union_is_Some.
    rewrite <- (elem_of_dom (<["task" := _]> _)), !dom_insert_L, dom_empty_L. set_solver.
Qed.

Lemma inferImage_keeps_payload_witness :
  (∀ k v, own_props image_payload !! k = Some v → get image_result k = v)
  ∧ (∀ k, is_Some (own_props image_result !! k)
          ↔ is_Some (own_props image_payload !! k)
            ∨ k ∈ ["task"; "count"; "detections"; "storage_url"])
  ∧ is_array image_result = false.
Proof.
  apply (inferImage_keeps_payload ∅ clip plate_recognize None
           {| ok := true; text := ""; json := Some image_payload |}
           (own_props image_payload) image_result); reflexivity.
Defined.

Lemma vehicle_detection_value (v : value) :
  nullish v = false → nullish (get v "bbox_vehicle") = false →
  vehicle_detection v
  = Ok (obj [("bbox", VArr [get (get v "bbox_vehicle") "x1"; get (get v "bbox_vehicle") "y1";
                            get (get v "bbox_vehicle") "x2"; get (get v "bbox_vehicle") "y2"]);
             ("score", get v "confidence"); ("class_id", get v "class_id")]).
Proof.
  intros Hv Hb. unfold vehicle_detection, bbox_of, getProp2.
  repeat rewrite (getProp_non_nullish v _ Hv). simpl.
  repeat rewrite (getProp_non_nullish (get v "bbox_vehicle") _ Hb). reflexivity.
Qed.

(** X12: under vehicle_detect, when raw_meta.vehicles is an array of entries
    that carry bbox_vehicle, the detections are one per vehicle, in order:
    the box is the four coordinates of bbox_vehicle, the score is the
    vehicle's confidence and the class id is the vehicle's class_id, as they
    are; the plates are not read. *)
Theorem vehicle_detections (data : value) (vs : list value) :
  nullish data = false →
  getOpt (get data "raw_meta") "vehicles" = VArr vs →
  vehicles_ok (VArr vs) = true →
  ∃ ds,
    detections_of vehicle_detect data = Ok (VArr ds)
    ∧ length ds = length vs
    ∧ Forall2 (λ v d,
        get d "bbox" = VArr [get (get v "bbox_vehicle") "x1"; get (get v "bbox_vehicle") "y1";
                             get (get v "bbox_vehicle") "x2"; get (get v "bbox_vehicle") "y2"]
        ∧ get d "score" = get v "confidence"
        ∧ get d "class_id" = get v "class_id") vs ds.
Proof.
  intros Hd Hvs Hok. unfold detections_of, getProp2.
  repeat rewrite (getProp_non_nullish data _ Hd). simpl. rewrite Hvs. simpl.
  assert (Hr : nullish (get data "raw_meta") = false).
  { unfold getOpt in Hvs. by destruct (nullish (get data "raw_meta")). }
  rewrite (getProp_non_nullish _ _ Hr). simpl.
  unfold getOpt in Hvs. rewrite Hr in Hvs. rewrite Hvs. simpl.
  simpl in Hok. apply Forall_forallb in Hok.
  destruct (mapM_total vehicle_detection
              (λ v d, d = obj [("bbox", VArr [get (get v "bbox_vehicle") "x1";
                                              get (get v "bbox_vehicle") "y1";
                                              get (get v "bbox_vehicle") "x2";
                                              get (get v "bbox_vehicle") "y2"]);
                               ("score", get v "confidence");
                               ("class_id", get v "class_id")]) vs)
    as (ds & Hds & HF).
  - eapply Forall_impl; [exact Hok|]. intros v Hv. apply andb_prop in Hv as [H1 H2].
    apply negb_true_iff in H1, H2. eexists. split; [|reflexivity].
    by apply vehicle_detection_value.
  - exists ds. rewrite Hds. split; [reflexivity|].
    split; [symmetry; by eapply Forall2_length|].
    eapply Forall2_impl; [exact HF|]. intros v d ->. by repeat split.
Qed.

Lemma vehicle_detections_witness :
  ∃ ds,
    detections_of vehicle_detect image_payload = Ok (VArr ds)
    ∧ length ds = length [obj [("bbox_vehicle", box 0 0 300 200);
                               ("confidence", VNum (Q2Qc (9 # 10)));
                               ("class_id", VNum (num 2))]]
    ∧ Forall2 (λ v d,
        get d "bbox" = VArr [get (get v "bbox_vehicle") "x1"; get (get v "bbox_vehicle") "y1";
                             get (get v "bbox_vehicle") "x2"; get (get v "bbox_vehicle") "y2"]
        ∧ get d "score" = get v "confidence"
        ∧ get d "class_id" = get v "class_id")
        [obj [("bbox_vehicle", box 0 0 300 200);
              ("confidence", VNum (Q2Qc (9 # 10)));
              ("class_id", VNum (num 2))]] ds.
Proof.
  apply (vehicle_detections image_payload
           [obj [("bbox_vehicle", box 0 0 300 200);
                 ("confidence", VNum (Q2Qc (9 # 10)));
                 ("class_id", VNum (num 2))]]); reflexivity.
Defined.

(** X13: under vehicle_detect, when raw_meta.vehicles is missing (or null),
    the detections are those of the plates, the same as under
    plate_recognize; when it is an empty array, which is truthy, there are
    no detections, whatever the plates are. *)
Theorem vehicle_detect_fallback (data : value) :
  nullish data = false →
  (truthy (getOpt (get data "raw_meta") "vehicles") = false →
   detections_of vehicle_detect data = detections_of plate_recognize data)
  ∧ (getOpt (get data "raw_meta") "vehicles" = VArr [] →
     detections_of vehicle_detect data = Ok (VArr [])).
Proof.
  intros Hd. unfold detections_of, getProp2.
  repeat rewrite (getProp_non_nullish data _ Hd). simpl. split.
  - by intros ->.
  - intros Hv. rewrite Hv. simpl.
    assert (Hr : nullish (get data "raw_meta") = false).
    { unfold getOpt in Hv. by destruct (nullish (get data "raw_meta")). }
    rewrite (getProp_non_nullish _ _ Hr). simpl.
    unfold getOpt in Hv. rewrite Hr in Hv. by rewrite Hv.
Qed.

Lemma vehicle_detect_fallback_witness :
  (truthy (getOpt (get status_bare "raw_meta") "vehicles") = false →
   detections_of vehicle_detect status_bare = detections_of plate_recognize status_bare)
  ∧ (getOpt (get status_bare "raw_meta") "vehicles" = VArr [] →
     detections_of vehicle_detect status_bare = Ok (VArr [])).
Proof. apply (vehicle_detect_fallback status_bare). reflexivity. Defined.

(** X14: for a plate entry that is not null, the detection takes its box
    from bbox_plate when the entry has one, else from bbox_vehicle when the
    entry has one, else it is [0,0,0,0]; its score is the confidence when
    that is truthy and 0 otherwise; its class id is 0. *)
Theorem plate_box_preference (p : value) :
  nullish p = false →
  ∃ d,
    plate_detection p = Ok d
    ∧ get d "bbox"
      = (if truthy (get p "bbox_plate")
         then VArr [get (get p "bbox_plate") "x1"; get (get p "bbox_plate") "y1";
                    get (get p "bbox_plate") "x2"; get (get p "bbox_plate") "y2"]
         else if truthy (get p "bbox_vehicle")
         then VArr [get (get p "bbox_vehicle") "x1"; get (get p "bbox_vehicle") "y1";
                    get (get p "bbox_vehicle") "x2"; get (get p "bbox_vehicle") "y2"]
         else zero_box)
    ∧ get d "score" = or_else (get p "confidence") (VNum (num 0))
    ∧ get d "class_id" = VNum (num 0).
Proof.
  intros Hp. unfold plate_detection, bbox_of, getProp2.
  repeat rewrite (getProp_non_nullish p _ Hp). simpl.
  destruct (truthy (get p "bbox_plate")) eqn:Hbp.
  - repeat rewrite (getProp_non_nullish p _ Hp). simpl.
    repeat rewrite (getProp_non_nullish _ _ (truthy_non_nullish _ Hbp)). simpl.
    eexists. split; [reflexivity|]. by repeat split.
  - destruct (truthy (get p "bbox_vehicle")) eqn:Hbv.
    + repeat rewrite (getProp_non_nullish p _ Hp). simpl.
      repeat rewrite (getProp_non_nullish _ _ (truthy_non_nullish _ Hbv)). simpl.
      eexists. split; [reflexivity|]. by repeat split.
    + simpl. eexists. split; [reflexivity|]. by repeat split.
Qed.

Lemma plate_box_preference_witness :
  ∃ d,
    plate_detection (obj [("bbox_vehicle", box 0 0 300 200)]) = Ok d
    ∧ get d "bbox"
      = (if truthy (get (obj [("bbox_vehicle", box 0 0 300 200)]) "bbox_plate")
         then VArr [get (get (obj [("bbox_vehicle", box 0 0 300 200)]) "bbox_plate") "x1";
                    get (get (obj [("bbox_vehicle", box 0 0 300 200)]) "bbox_plate") "y1";
                    get (get (obj [("bbox_vehicle", box 0 0 300 200)]) "bbox_plate") "x2";
                    get (get (obj [("bbox_vehicle", box 0 0 300 200)]) "bbox_plate") "y2"]
         else if truthy (get (obj [("bbox_vehicle", box 0 0 300 200)]) "bbox_vehicle")
         then VArr [get (get (obj [("bbox_vehicle", box 0 0 300 200)]) "bbox_vehicle") "x1";
                    get (get (obj [("bbox_vehicle", box 0 0 300 200)]) "bbox_vehicle") "y1";
                    get (get (obj [("bbox_vehicle", box 0 0 300 200)]) "bbox_vehicle") "x2";
                    get (get (obj [("bbox_vehicle", box 0 0 300 200)]) "bbox_vehicle") "y2"]
         else zero_box)
    ∧ get d "score" = or_else (get (obj [("bbox_vehicle", box 0 0 300 200)]) "confidence")
                              (VNum (num 0))
    ∧ get d "class_id" = VNum (num 0).
Proof. apply (plate_box_preference (obj [("bbox_vehicle", box 0 0 300 200)])). reflexivity. Defined.

(** ** The image workspace *)

Lemma image_step_urls_ok (env : ProcessEnv) (ev : ImageWorkspace.event)
    (st : ImageWorkspace.State) :
  ImageWorkspace.urls_ok st → ImageWorkspace.urls_ok (ImageWorkspace.step env ev st).1.
Proof.
  unfold ImageWorkspace.urls_ok. intros H. destruct ev as [f| |t|net]; simpl.
  - unfold ImageWorkspace.handleFileChange.
    destruct (ImageWorkspace.fileUrl st) as [u|]; destruct H as [Hu Hf];
      destruct f as [f'|]; simpl; rewrite Hu;
      rewrite ?difference_diag_L, ?difference_empty_L, ?union_empty_r_L; by split.
  - unfold ImageWorkspace.handleRemove.
    destruct (ImageWorkspace.fileUrl st) as [u|] eqn:E; destruct H as [Hu Hf]; simpl.
    + rewrite Hu, difference_diag_L. by split.
    + rewrite E. by split.
  - exact H.
  - assert (Hkeep : ImageWorkspace.fileUrl (ImageWorkspace.handleRun env net st).1
                    = ImageWorkspace.fileUrl st
                    ∧ ImageWorkspace.urls (ImageWorkspace.handleRun env net st).1
                      = ImageWorkspace.urls st
                    ∧ ImageWorkspace.file (ImageWorkspace.handleRun env net st).1
                      = ImageWorkspace.file st).
    { unfold ImageWorkspace.handleRun.
      destruct (ImageWorkspace.file st) as [f|] eqn:E; simpl; [|by rewrite E].
      destruct (inferImage env f (ImageWorkspace.task st) None net) as [reqs [r|e]];
        simpl; by rewrite E. }
    destruct Hkeep as (-> & -> & ->). exact H.
Qed.

(** X15: the image workspace leaks no object URL: in every state it can
    reach, the object URLs that were created and not revoked are exactly the
    one the [fileUrl] ref holds, so at most one, and the ref holds one
    exactly when a file is chosen. *)
Theorem image_object_urls (env : ProcessEnv) (st : ImageWorkspace.State) :
  ImageWorkspace.reachable env st →
  (∀ u, u ∈ ImageWorkspace.urls st ↔ ImageWorkspace.fileUrl st = Some u)
  ∧ (is_Some (ImageWorkspace.fileUrl st) ↔ is_Some (ImageWorkspace.file st)).
Proof.
  intros H.
  assert (Hok : ImageWorkspace.urls_ok st).
  { induction H as [|ev st _ IH]; [by split | by apply image_step_urls_ok]. }
  unfold ImageWorkspace.urls_ok in Hok.
  destruct (ImageWorkspace.fileUrl st) as [u0|]; destruct Hok as [Hu Hf]; rewrite Hu.
  - split; [|by split]. intros u. rewrite elem_of_singleton. split; congruence.
  - rewrite Hf. split.
    + intros u. rewrite elem_of_empty. split; [done | discriminate].
    + split; intros [? ?]; discriminate.
Qed.

Lemma image_object_urls_witness :
  (∀ u, u ∈ ImageWorkspace.urls
            (ImageWorkspace.step ∅ (ImageWorkspace.FileChange (Some clip))
               (ImageWorkspace.step ∅ (ImageWorkspace.FileChange (Some clip))
                  ImageWorkspace.initial).1).1
        ↔ ImageWorkspace.fileUrl
            (ImageWorkspace.step ∅ (ImageWorkspace.FileChange (Some clip))
               (ImageWorkspace.step ∅ (ImageWorkspace.FileChange (Some clip))
                  ImageWorkspace.initial).1).1 = Some u)
  ∧ (is_Some (ImageWorkspace.fileUrl
                (ImageWorkspace.step ∅ (ImageWorkspace.FileChange (Some clip))
                   (ImageWorkspace.step ∅ (ImageWorkspace.FileChange (Some clip))
                      ImageWorkspace.initial).1).1)
     ↔ is_Some (ImageWorkspace.file
                  (ImageWorkspace.step ∅ (ImageWorkspace.FileChange (Some clip))
                     (ImageWorkspace.step ∅ (ImageWorkspace.FileChange (Some clip))
                        ImageWorkspace.initial).1).1)).
Proof.
  apply (image_object_urls ∅). do 2 apply ImageWorkspace.reachable_step.
  apply ImageWorkspace.reachable_initial.
Defined.

Lemma inferImage_Ok_object (env : ProcessEnv) (f : File) (t : Task) (roi : option ROI)
    (net : fetched) (r : value) :
  (inferImage env f t roi net).2 = Ok r → ∃ m, r = VObj m.
Proof.
  unfold inferImage. rewrite API_URL_nonempty. simpl. intros H.
  apply bind_Ok in H as (res & _ & H). destruct (negb (ok res)); [discriminate|].
  apply bind_Ok in H as (data & _ & H).
  apply transformImage_Ok in H as (d & _ & ->). by eexists.
Qed.

(** X16: a run of the image workspace with a file chosen sends the one
    inference request, without a region of interest, and ends with loading
    off and with either a result and no error, or an error that is not empty
    and no result; the chosen file and its object URL are untouched. *)
Theorem image_run_outcome (env : ProcessEnv) (net : fetched)
    (st : ImageWorkspace.State) (f : File) :
  ImageWorkspace.file st = Some f →
  (ImageWorkspace.handleRun env net st).2
  = [PostInferImage (API_URL env) (ImageWorkspace.task st) None f]
  ∧ ImageWorkspace.loading (ImageWorkspace.handleRun env net st).1 = false
  ∧ ((∃ m, ImageWorkspace.result (ImageWorkspace.handleRun env net st).1 = VObj m
           ∧ (inferImage env f (ImageWorkspace.task st) None net).2 = Ok (VObj m)
           ∧ ImageWorkspace.error (ImageWorkspace.handleRun env net st).1 = None)
     ∨ (ImageWorkspace.result (ImageWorkspace.handleRun env net st).1 = VNull
        ∧ ∃ msg, ImageWorkspace.error (ImageWorkspace.handleRun env net st).1 = Some msg
                 ∧ msg ≠ ""))
  ∧ ImageWorkspace.file (ImageWorkspace.handleRun env net st).1 = Some f
  ∧ ImageWorkspace.fileUrl (ImageWorkspace.handleRun env net st).1
    = ImageWorkspace.fileUrl st.
Proof.
  intros Hf. unfold ImageWorkspace.handleRun. rewrite Hf.
  pose proof (inferImage_Ok_object env f (ImageWorkspace.task st) None net) as Hobj.
  assert (Hreq : (inferImage env f (ImageWorkspace.task st) None net).1
                 = [PostInferImage (API_URL env) (ImageWorkspace.task st) None f]).
  { unfold inferImage. by rewrite API_URL_nonempty. }
  destruct (inferImage env f (ImageWorkspace.task st) None net) as [reqs [r|e]];
    simpl in *; subst reqs.
  - destruct (Hobj r eq_refl) as [m ->]. repeat split; try done. left. by exists m.
  - repeat split; try done. right. split; [reflexivity|]. eexists. split; [reflexivity|].
    unfold text_or. destruct (String.eqb (exn_message e) "") eqn:E; [done|].
    by apply String.eqb_neq.
Qed.

Lemma image_run_outcome_witness :
  (ImageWorkspace.handleRun ∅ (ok_json image_payload)
     (ImageWorkspace.handleFileChange (Some clip) ImageWorkspace.initial)).2
  = [PostInferImage (API_URL ∅)
       (ImageWorkspace.task
          (ImageWorkspace.handleFileChange (Some clip) ImageWorkspace.initial)) None clip]
  ∧ ImageWorkspace.loading
      (ImageWorkspace.handleRun ∅ (ok_json image_payload)
         (ImageWorkspace.handleFileChange (Some clip) ImageWorkspace.initial)).1 = false
  ∧ ((∃ m, ImageWorkspace.result
             (ImageWorkspace.handleRun ∅ (ok_json image_payload)
                (ImageWorkspace.handleFileChange (Some clip) ImageWorkspace.initial)).1
           = VObj m
           ∧ (inferImage ∅ clip
                (ImageWorkspace.task
                   (ImageWorkspace.handleFileChange (Some clip) ImageWorkspace.initial))
                None (ok_json image_payload)).2 = Ok (VObj m)
           ∧ ImageWorkspace.error
               (ImageWorkspace.handleRun ∅ (ok_json image_payload)
                  (ImageWorkspace.handleFileChange (Some clip) ImageWorkspace.initial)).1
             = None)
     ∨ (ImageWorkspace.result
          (ImageWorkspace.handleRun ∅ (ok_json image_payload)
             (ImageWorkspace.handleFileChange (Some clip) ImageWorkspace.initial)).1
        = VNull
        ∧ ∃ msg, ImageWorkspace.error
                   (ImageWorkspace.handleRun ∅ (ok_json image_payload)
                      (ImageWorkspace.handleFileChange (Some clip)
                         ImageWorkspace.initial)).1 = Some msg
                 ∧ msg ≠ ""))
  ∧ ImageWorkspace.file
      (ImageWorkspace.handleRun ∅ (ok_json image_payload)
         (ImageWorkspace.handleFileChange (Some clip) ImageWorkspace.initial)).1
    = Some clip
  ∧ ImageWorkspace.fileUrl
      (ImageWorkspace.handleRun ∅ (ok_json image_payload)
         (ImageWorkspace.handleFileChange (Some clip) ImageWorkspace.initial)).1
    = ImageWorkspace.fileUrl
        (ImageWorkspace.handleFileChange (Some clip) ImageWorkspace.initial).
Proof.
  apply (image_run_outcome ∅ (ok_json image_payload)
           (ImageWorkspace.handleFileChange (Some clip) ImageWorkspace.initial) clip).
  reflexivity.
Defined.

(** ** The history page: pagination *)

Section Pagination.

Import HistoryPage.

#[local] Open Scope Z_scope.

Lemma aligned_0 : aligned 0.
Proof. exists 0. unfold limit. lia. Qed.

Lemma aligned_next (offset : Z) : aligned offset → aligned (next offset).
Proof. intros (k & Hk & ->). exists (k + 1). unfold next, limit. lia. Qed.

Lemma aligned_previous (offset : Z) : aligned offset → aligned (previous offset).
Proof.
  intros (k & Hk & ->). unfold previous, limit.
  destruct (Z.eq_dec k 0) as [-> | Hne].
  - exists 0. unfold limit. lia.
  - exists (k - 1). unfold limit. lia.
Qed.

Lemma currentPage_aligned (k : Z) : currentPage (k * limit) = k + 1.
Proof. unfold currentPage, floor_div, limit. by rewrite Z.div_mul. Qed.

Lemma totalPages_bounds (total : Z) :
  (totalPages total - 1) * limit < total ≤ totalPages total * limit.
Proof.
  unfold totalPages, ceil_div, limit.
  pose proof (Z.div_mod (- total) 50 ltac:(lia)) as H1.
  pose proof (Z.mod_pos_bound (- total) 50 ltac:(lia)) as H2. lia.
Qed.

End Pagination.

(** X17: the offsets of the history page are always page boundaries: in
    every state the page can reach, the frame offset and the video offset
    are non-negative multiples of the page size 50. *)
Theorem history_offsets_aligned (st : HistoryPage.State) :
  HistoryPage.reachable st →
  HistoryPage.aligned (HistoryPage.frameOffset st)
  ∧ HistoryPage.aligned (HistoryPage.videoOffset st).
Proof.
  induction 1 as [|ev st st' _ [IHf IHv] Hs]; [split; apply aligned_0|].
  destruct ev; simpl in Hs;
    repeat match type of Hs with
           | context [match ?x with _ => _ end] => destruct x; try discriminate
           end;
    injection Hs as <-; simpl; split;
    auto using aligned_0, aligned_next, aligned_previous.
Qed.

Lemma history_offsets_aligned_witness :
  HistoryPage.aligned (HistoryPage.frameOffset
    {| HistoryPage.activeTab := HistoryPage.frames; HistoryPage.frameOffset := 50;
       HistoryPage.videoOffset := 0; HistoryPage.frameTotal := 120;
       HistoryPage.videoTotal := 0 |})
  ∧ HistoryPage.aligned (HistoryPage.videoOffset
    {| HistoryPage.activeTab := HistoryPage.frames; HistoryPage.frameOffset := 50;
       HistoryPage.videoOffset := 0; HistoryPage.frameTotal := 120;
       HistoryPage.videoTotal := 0 |}).
Proof.
  apply history_offsets_aligned.
  eapply (HistoryPage.reachable_step HistoryPage.FrameNext
            {| HistoryPage.activeTab := HistoryPage.frames; HistoryPage.frameOffset := 0;
               HistoryPage.videoOffset := 0; HistoryPage.frameTotal := 120;
               HistoryPage.videoTotal := 0 |}).
  - eapply (HistoryPage.reachable_step (HistoryPage.FramesLoaded 120) HistoryPage.initial);
      [constructor | reflexivity].
  - reflexivity.
Defined.

(** X18: on a page boundary inside the list, the Next button is disabled
    exactly on the last page (the page that reaches the total), and when it
    is enabled the next offset is still inside the list and is the start of
    the following page, which is at most the last page. *)
Theorem history_next_in_range (offset total : Z) :
  HistoryPage.aligned offset → (offset < total)%Z →
  (HistoryPage.next_disabled offset total = true ↔ (total <= offset + HistoryPage.limit)%Z)
  ∧ (HistoryPage.next_disabled offset total = false →
     (HistoryPage.next offset < total)%Z
     ∧ HistoryPage.currentPage (HistoryPage.next offset)
       = (HistoryPage.currentPage offset + 1)%Z
     ∧ (HistoryPage.currentPage (HistoryPage.next offset)
        <= HistoryPage.totalPages total)%Z)
  ∧ (1 <= HistoryPage.currentPage offset <= HistoryPage.totalPages total)%Z.
Proof.
  intros (k & Hk & ->) Hlt.
  pose proof (totalPages_bounds total) as Hb.
  assert (Hnext : HistoryPage.next (k * HistoryPage.limit)
                  = ((k + 1) * HistoryPage.limit)%Z).
  { unfold HistoryPage.next. lia. }
  unfold HistoryPage.next_disabled. rewrite Hnext, !currentPage_aligned.
  unfold HistoryPage.limit in *. split; [|split].
  - rewrite Z.eqb_eq. split; intros H; nia.
  - intros H. apply Z.eqb_neq in H. repeat split; nia.
  - nia.
Qed.

Lemma history_next_in_range_witness :
  (HistoryPage.next_disabled 50 120 = true ↔ (120 <= 50 + HistoryPage.limit)%Z)
  ∧ (HistoryPage.next_disabled 50 120 = false →
     (HistoryPage.next 50 < 120)%Z
     ∧ HistoryPage.currentPage (HistoryPage.next 50)
       = (HistoryPage.currentPage 50 + 1)%Z
     ∧ (HistoryPage.currentPage (HistoryPage.next 50) <= HistoryPage.totalPages 120)%Z)
  ∧ (1 <= HistoryPage.currentPage 50 <= HistoryPage.totalPages 120)%Z.
Proof.
  apply (history_next_in_range 50 120).
  - exists 1%Z. split; [lia | reflexivity].
  - lia.
Defined.

(** X19: on a page boundary, Previous never goes below 0 and lands on a page
    boundary; it is disabled exactly on page 1, and when it is enabled it
    goes back one page. *)
Theorem history_previous (offset : Z) :
  HistoryPage.aligned offset →
  (0 <= HistoryPage.previous offset)%Z
  ∧ HistoryPage.aligned (HistoryPage.previous offset)
  ∧ (HistoryPage.previous_disabled offset = true ↔ HistoryPage.currentPage offset = 1%Z)
  ∧ (HistoryPage.previous_disabled offset = false →
     HistoryPage.previous offset = (offset - HistoryPage.limit)%Z
     ∧ HistoryPage.currentPage (HistoryPage.previous offset)
       = (HistoryPage.currentPage offset - 1)%Z).
Proof.
  intros Ha. split; [unfold HistoryPage.previous; lia|].
  split; [by apply aligned_previous|].
  destruct Ha as (k & Hk & ->). rewrite currentPage_aligned.
  unfold HistoryPage.previous_disabled. split.
  - rewrite Z.eqb_eq. unfold HistoryPage.limit. lia.
  - intros H. apply Z.eqb_neq in H. unfold HistoryPage.limit in H.
    assert (Hp : HistoryPage.previous (k * HistoryPage.limit)
                 = ((k - 1) * HistoryPage.limit)%Z).
    { unfold HistoryPage.previous, HistoryPage.limit. lia. }
    rewrite Hp, currentPage_aligned. unfold HistoryPage.limit. lia.
Qed.

Lemma history_previous_witness :
  (0 <= HistoryPage.previous 100)%Z
  ∧ HistoryPage.aligned (HistoryPage.previous 100)
  ∧ (HistoryPage.previous_disabled 100 = true ↔ HistoryPage.currentPage 100 = 1%Z)
  ∧ (HistoryPage.previous_disabled 100 = false →
     HistoryPage.previous 100 = (100 - HistoryPage.limit)%Z
     ∧ HistoryPage.currentPage (HistoryPage.previous 100)
       = (HistoryPage.currentPage 100 - 1)%Z).
Proof.
  apply (history_previous 100). exists 2%Z. split; [lia | reflexivity].
Defined.

(** X20: the range in the heading is shown exactly when the total is
    positive; on a page boundary inside the list it runs from the first item
    of the page to the last one, never past the total, holds at most 50
    items and fewer only on the page that reaches the total. *)
Theorem history_range (offset total : Z) :
  HistoryPage.aligned offset → (offset < total)%Z →
  ∃ lo hi,
    HistoryPage.range_shown offset total = Some (lo, hi)
    ∧ lo = (offset + 1)%Z
    ∧ (lo <= hi <= total)%Z
    ∧ (hi - lo + 1 <= HistoryPage.limit)%Z
    ∧ ((hi - lo + 1 < HistoryPage.limit)%Z → hi = total).
Proof.
  intros (k & Hk & ->) Hlt. unfold HistoryPage.range_shown, HistoryPage.limit in *.
  assert (Hpos : (0 <? total)%Z = true) by (apply Z.ltb_lt; lia).
  rewrite Hpos. eexists _, _. split; [reflexivity|]. repeat split; lia.
Qed.

Lemma history_range_witness :
  ∃ lo hi,
    HistoryPage.range_shown 100 120 = Some (lo, hi)
    ∧ lo = (100 + 1)%Z
    ∧ (lo <= hi <= 120)%Z
    ∧ (hi - lo + 1 <= HistoryPage.limit)%Z
    ∧ ((hi - lo + 1 < HistoryPage.limit)%Z → hi = 120%Z).
Proof.
  apply (history_range 100 120).
  - exists 2%Z. split; [lia | reflexivity].
  - lia.
Defined.

(** ** The video detail page: the duration *)

(** X21: for a video completed after it was created, the minutes and seconds
    shown split the elapsed milliseconds: the seconds are between 0 and 59
    and minutes and seconds together are the elapsed time rounded down to a
    whole second.  When there is no completion time, or it equals the
    creation time, neither is computed. *)
Theorem duration_split (completed_at created_at : Z) :
  (created_at < completed_at)%Z →
  ∃ m s,
    VideoDetailPage.durationMinutes
      (VideoDetailPage.duration (Some completed_at) created_at) = Some m
    ∧ VideoDetailPage.durationSeconds
        (VideoDetailPage.duration (Some completed_at) created_at) = Some s
    ∧ (0 <= m)%Z ∧ (0 <= s <= 59)%Z
    ∧ (1000 * (60 * m + s) <= completed_at - created_at < 1000 * (60 * m + s) + 1000)%Z
    ∧ VideoDetailPage.durationMinutes (VideoDetailPage.duration None created_at) = None
    ∧ VideoDetailPage.durationSeconds
        (VideoDetailPage.duration (Some created_at) created_at) = None.
Proof.
  intros Hlt. set (d := (completed_at - created_at)%Z).
  assert (Hd : (0 < d)%Z) by (unfold d; lia).
  unfold VideoDetailPage.durationMinutes, VideoDetailPage.durationSeconds,
    VideoDetailPage.duration, VideoDetailPage.duration_truthy.
  fold d. assert (Hz : (d =? 0)%Z = false) by (apply Z.eqb_neq; lia).
  rewrite Hz, Z.sub_diag. simpl.
  eexists _, _. split; [reflexivity|]. split; [reflexivity|].
  rewrite Z.rem_mod_nonneg by lia.
  pose proof (Z.div_mod d 60000 ltac:(lia)) as H1.
  pose proof (Z.mod_pos_bound d 60000 ltac:(lia)) as H2.
  pose proof (Z.div_mod (d mod 60000) 1000 ltac:(lia)) as H3.
  pose proof (Z.mod_pos_bound (d mod 60000) 1000 ltac:(lia)) as H4.
  pose proof (Z.div_pos d 60000 ltac:(lia) ltac:(lia)) as H5.
  pose proof (Z.div_pos (d mod 60000) 1000 ltac:(lia) ltac:(lia)) as H6.
  repeat split; lia.
Qed.

Lemma duration_split_witness :
  ∃ m s,
    VideoDetailPage.durationMinutes
      (VideoDetailPage.duration (Some 1700000125500%Z) 1700000000000%Z) = Some m
    ∧ VideoDetailPage.durationSeconds
        (VideoDetailPage.duration (Some 1700000125500%Z) 1700000000000%Z) = Some s
    ∧ (0 <= m)%Z ∧ (0 <= s <= 59)%Z
    ∧ (1000 * (60 * m + s) <= 1700000125500 - 1700000000000
       < 1000 * (60 * m + s) + 1000)%Z
    ∧ VideoDetailPage.durationMinutes (VideoDetailPage.duration None 1700000000000%Z)
      = None
    ∧ VideoDetailPage.durationSeconds
        (VideoDetailPage.duration (Some 1700000000000%Z) 1700000000000%Z) = None.
Proof. apply (duration_split 1700000125500 1700000000000). lia. Defined.

(** ** The home page: the backend status *)

(** X22: after the first check the home page never shows "checking" again:
    it shows the outcome of the latest health request, online exactly when
    that request was answered with an ok response whose body is JSON, and
    offline otherwise, also for an ok response whose body is not JSON. *)
Theorem backend_status_latest (env : ProcessEnv) (nets : list fetched) (net : fetched) :
  HomePage.backendStatus env (nets ++ [net])%list
  = (if match net with
        | Responded res => ok res && bool_decide (is_Some (json res))
        | NetworkError _ => false
        end
     then HomePage.online else HomePage.offline)
  ∧ HomePage.backendStatus env (nets ++ [net])%list ≠ HomePage.checking
  ∧ HomePage.backendStatus env [] = HomePage.checking.
Proof.
  assert (H : HomePage.backendStatus env (nets ++ [net])%list
              = if match net with
                   | Responded res => ok res && bool_decide (is_Some (json res))
                   | NetworkError _ => false
                   end
                then HomePage.online else HomePage.offline).
  { unfold HomePage.backendStatus. rewrite fold_left_app. simpl.
    unfold HomePage.checkBackend, HomePage.pingBackend. rewrite API_URL_nonempty.
    destruct net as [m|res]; simpl; [reflexivity|].
    destruct (ok res); simpl; [|reflexivity]. unfold res_json.
    by destruct (json res). }
  split; [exact H|]. split; [|reflexivity]. rewrite H.
  destruct net as [m|res]; [discriminate|].
  by destruct (ok res && bool_decide (is_Some (json res))).
Qed.

(** * The video workspace with requests in flight *)

(** ** The invariant *)

Lemma interval_answered_poll (env : ProcessEnv) (job : value) (net : fetched) (p : State) :
  interval_answered env job net p = (poll env job net p).1.
Proof.
  unfold interval_answered, poll. by destruct (getVideoStatus env job net) as [reqs [s|e]].
Qed.














(** ** Polling *)










(** ** Progress *)






(** ** Job states *)







(** ** The size limit *)

Lemma handleFileChange_within_limit (f : option File) (st : State) :
  file_within_limit (handleFileChange f st) = true.
Proof.
  unfold file_within_limit, handleFileChange. destruct f as [f'|].
  - destruct (MAX_VIDEO_SIZE <? size f')%N eqn:E; [reflexivity|].
    destruct (resetJob_clears (setError None (setFile (Some f') st))) as (_ & _ & _ & -> & _).
    cbn [file setError setFile]. apply N.leb_le. by apply N.ltb_ge.
  - by destruct (resetJob_clears (setError None (setFile None st))) as (_ & _ & _ & -> & _).
Qed.

Lemma handleRun_file (env : ProcessEnv) (net : fetched) (st : State) :
  file (handleRun env net st).1 = file st.
Proof.
  unfold handleRun. destruct (file st) as [f|] eqn:Hf; [|exact Hf].
  destruct (inferVideo env f (task st) None net) as [reqs r]. cbn [fst file setLoading].
  destruct (resetJob_clears (setError None (setLoading true st))) as (_ & _ & _ & Hfile & _).
  destruct (r ≫= _) as [job|err]; cbn [file setResult setError].
  - destruct (setJobId_keeps job (resetJob (setError None (setLoading true st))))
      as (_ & -> & _).
    by rewrite Hfile.
  - by rewrite Hfile.
Qed.

Lemma step_within_limit (env : ProcessEnv) (ev : event) (st st' : State)
    (reqs : list request) :
  file_within_limit st = true → step env ev st = Some (st', reqs) →
  file_within_limit st' = true ∧ forallb within_limit reqs = true.
Proof.
  intros Hf. destruct ev as [f| |t|net|net|id net]; cbn [step].
  - intros [= <- <-]. split; [apply handleFileChange_within_limit | reflexivity].
  - intros [= <- <-]. split; [|reflexivity]. unfold file_within_limit, handleRemove.
    by destruct (resetJob_clears (setFile None st)) as (_ & _ & _ & -> & _).
  - by intros [= <- <-].
  - intros [= Hs]. pose proof (handleRun_file env net st) as Hfile.
    rewrite Hs in Hfile. cbn [fst] in Hfile. split.
    + unfold file_within_limit. by rewrite Hfile.
    + unfold handleRun in Hs. unfold file_within_limit in Hf.
      destruct (file st) as [f|]; [|by injection Hs as _ <-].
      destruct (inferVideo_job_id env f (task st) net) as (Hreq & _).
      rewrite Hreq in Hs. injection Hs as _ <-. cbn [forallb within_limit]. by rewrite Hf.
  - rewrite handleCancel_Ok. destruct (truthy (jobId st)); intros [= <- <-]; [|by split].
    split; [|reflexivity]. unfold file_within_limit.
    by destruct (resetJob_clears (setCanceling false (setCanceling true st)))
      as (_ & _ & _ & -> & _).
  - unfold tick. destruct (timers st !! id) as [job|]; [|discriminate].
    intros [= Hs]. pose proof (poll_file env job net st) as H1.
    pose proof (poll_request env job net st) as H2.
    rewrite Hs in H1, H2. cbn [fst snd] in H1, H2. unfold file_within_limit.
    rewrite H1, H2. by split.
Qed.

Lemma run_within_limit (env : ProcessEnv) (evs : list event) (st : State) :
  file_within_limit st = true → forallb within_limit (run env evs st).2 = true.
Proof.
  revert st. induction evs as [|ev evs IH]; intros st Hf; [reflexivity|].
  cbn [run]. destruct (step env ev st) as [[st' reqs]|] eqn:Hs; [|by apply IH].
  destruct (step_within_limit env ev st st' reqs Hf Hs) as [Hf' Hr].
  specialize (IH st' Hf'). destruct (run env evs st') as [st'' reqs'].
  cbn [snd] in *. by rewrite forallb_app, Hr, IH.
Qed.

Lemma astep_within_limit (env : ProcessEnv) (ev : action) (st st' : AState)
    (reqs : list request) :
  file_within_limit (page st) = true → astep env ev st = Some (st', reqs) →
  file_within_limit (page st') = true ∧ forallb within_limit reqs = true.
Proof.
  intros Hf. destruct ev as [f| |t| | |id|rid net]; cbn [astep].
  - intros [= <- <-]. split; [apply handleFileChange_within_limit | reflexivity].
  - destruct (bool_decide _); [|discriminate]. intros [= <- <-]. split; [|reflexivity].
    cbn [page with_page]. unfold file_within_limit, handleRemove.
    by destruct (resetJob_clears (setFile None (page st))) as (_ & _ & _ & -> & _).
  - by intros [= <- <-].
  - destruct (run_disabled (page st)); [discriminate|]. unfold handleRun_sent.
    unfold file_within_limit in Hf.
    destruct (file (page st)) as [f|] eqn:Hfile.
    + rewrite API_URL_nonempty. intros [= <- <-]. cbn [page with_page send].
      split; [|cbn [forallb within_limit]; by rewrite Hf].
      unfold file_within_limit.
      destruct (resetJob_clears (setError None (setLoading true (page st))))
        as (_ & _ & _ & -> & _).
      cbn [file setError setLoading]. by rewrite Hfile.
    + intros [= <- <-]. split; [|reflexivity]. cbn [page with_page].
      unfold file_within_limit. cbn [file setError]. by rewrite Hfile.
  - destruct (overlay_shown (page st)); [|discriminate]. unfold handleCancel_sent.
    destruct (negb (truthy (jobId (page st)))); by intros [= <- <-].
  - destruct (timers (page st) !! id) as [job|]; [|discriminate].
    unfold interval_sent. rewrite API_URL_nonempty. by intros [= <- <-].
  - destruct (awaiting st !! rid) as [a|]; [|discriminate]. intros [= <- <-].
    split; [|reflexivity]. cbn [page with_page]. unfold file_within_limit.
    destruct a as [job|f t|job]; cbn [answered].
    + rewrite interval_answered_poll, poll_file. exact Hf.
    + unfold handleRun_answered. cbn [file setLoading].
      destruct (_ ≫= _) as [job|err]; cbn [file setResult setError]; [|exact Hf].
      destruct (setJobId_keeps job (page st)) as (_ & -> & _). exact Hf.
    + unfold handleCancel_answered.
      destruct (resetJob_clears (setCanceling false (page st))) as (_ & _ & _ & -> & _).
      exact Hf.
Qed.

Lemma requests_of_within_limit (env : ProcessEnv) (evs : list action) (st : AState) :
  file_within_limit (page st) = true → forallb within_limit (requests_of env evs st) = true.
Proof.
  revert st. induction evs as [|ev evs IH]; intros st Hf; [reflexivity|].
  cbn [requests_of]. unfold after. rewrite forallb_app.
  destruct (astep env ev st) as [[st' reqs]|] eqn:Hs.
  - destruct (astep_within_limit env ev st st' reqs Hf Hs) as [Hf' ->]. by apply IH.
  - by apply IH.
Qed.

(** C4, amended: for every selected video file strictly larger than
    200 * 1024 * 1024 bytes, the selection is rejected synchronously with
    the error "File size exceeds 200MB limit", no file remains selected, and
    no job is ever created: over every run of the workspace, file changes
    included, no upload carries a file above the limit, so none carries this
    file; a file of exactly that size is accepted.  The limit is the
    constant [MAX_VIDEO_SIZE] of the page, 209715200 bytes. *)
Theorem oversized_file_rejected (env : ProcessEnv) (f : File) (st : State) :
  (MAX_VIDEO_SIZE < size f)%N →
  MAX_VIDEO_SIZE = 209715200%N
  ∧ step env (FileChange (Some f)) st = Some (handleFileChange (Some f) st, [])
  ∧ error (handleFileChange (Some f) st) = Some "File size exceeds 200MB limit"
  ∧ file (handleFileChange (Some f) st) = None
  ∧ jobId (handleFileChange (Some f) st) = jobId st
  ∧ (∀ evs, forallb within_limit (run env evs (handleFileChange (Some f) st)).2 = true)
  ∧ (∀ evs base t roi,
       PostInferVideo base t roi f ∉ (run env evs (handleFileChange (Some f) st)).2)
  ∧ (∀ ast evs,
       page ast = handleFileChange (Some f) st →
       forallb within_limit (requests_of env evs ast) = true
       ∧ ∀ base t roi, PostInferVideo base t roi f ∉ requests_of env evs ast)
  ∧ (∀ f0 st0, size f0 = MAX_VIDEO_SIZE →
       file (handleFileChange (Some f0) st0) = Some f0
       ∧ error (handleFileChange (Some f0) st0) = None).
Proof.
  intros Hsize.
  assert (Hrej : handleFileChange (Some f) st
                 = setFile None (setError (Some "File size exceeds 200MB limit") st)).
  { unfold handleFileChange. apply N.ltb_lt in Hsize. by rewrite Hsize. }
  assert (Hnot : ∀ reqs base t roi, forallb within_limit reqs = true →
                   PostInferVideo base t roi f ∉ reqs).
  { intros reqs base t roi Hall Hin. rewrite forallb_forall in Hall.
    apply list_elem_of_In in Hin. specialize (Hall _ Hin). cbn [within_limit] in Hall.
    apply N.leb_le in Hall. lia. }
  split; [reflexivity|]. split; [reflexivity|].
  split; [by rewrite Hrej|]. split; [by rewrite Hrej|]. split; [by rewrite Hrej|].
  split; [|split; [|split]].
  - intros evs. apply run_within_limit, handleFileChange_within_limit.
  - intros evs base t roi. apply Hnot, run_within_limit, handleFileChange_within_limit.
  - intros ast evs Hpage.
    assert (Hall : forallb within_limit (requests_of env evs ast) = true).
    { apply requests_of_within_limit. rewrite Hpage. apply handleFileChange_within_limit. }
    split; [exact Hall|]. intros base t roi. by apply Hnot.
  - intros f0 st0 H0. unfold handleFileChange. rewrite H0, N.ltb_irrefl.
    destruct (resetJob_clears (setError None (setFile (Some f0) st0)))
      as (_ & _ & _ & -> & -> & _). by split.
Qed.

Lemma oversized_file_rejected_witness :
  MAX_VIDEO_SIZE = 209715200%N
  ∧ step ∅ (FileChange (Some big_file)) chosen_state
    = Some (handleFileChange (Some big_file) chosen_state, [])
  ∧ error (handleFileChange (Some big_file) chosen_state)
    = Some "File size exceeds 200MB limit"
  ∧ file (handleFileChange (Some big_file) chosen_state) = None
  ∧ jobId (handleFileChange (Some big_file) chosen_state) = jobId chosen_state
  ∧ (∀ evs, forallb within_limit
              (run ∅ evs (handleFileChange (Some big_file) chosen_state)).2 = true)
  ∧ (∀ evs base t roi,
       PostInferVideo base t roi big_file
       ∉ (run ∅ evs (handleFileChange (Some big_file) chosen_state)).2)
  ∧ (∀ ast evs,
       page ast = handleFileChange (Some big_file) chosen_state →
       forallb within_limit (requests_of ∅ evs ast) = true
       ∧ ∀ base t roi, PostInferVideo base t roi big_file ∉ requests_of ∅ evs ast)
  ∧ (∀ f0 st0, size f0 = MAX_VIDEO_SIZE →
       file (handleFileChange (Some f0) st0) = Some f0
       ∧ error (handleFileChange (Some f0) st0) = None).
Proof. apply (oversized_file_rejected ∅ big_file chosen_state). reflexivity. Defined.
